(** * TaskMaster: dependency-gated task dispatch (taskmaster.py)

    A shallow embedding of the task store, of the dispatch function
    [queue_task], of the worker callback with [process_task], and of the
    creation endpoint [create_task], followed by the properties of the
    design document that concern them.

    Python objects are modelled with a heap: the global dict [tasks] maps a
    key to a reference, the heap maps a reference to the [Task] object.  A
    Python exception is the [Raise] outcome of a computation; the state
    reached before the exception is kept, as in Python.

    The system model interleaves the threads coarsely: a creation request
    runs as one step, and a callback runs as two steps, up to its sleep and
    from its sleep on.  The broker calls inside a step block as well, so
    the program has thread orders that the model does not have; the
    properties stated over the steps are those that hold of every single
    write or that each step re-establishes. *)

From Stdlib Require Import ZArith String List Bool Lia.
From stdpp Require Import base option list gmap strings.

Local Open Scope string_scope.
Local Open Scope list_scope.

(** ** Data model *)

Inductive TaskStatus : Type :=
  | PENDING
  | IN_PROGRESS
  | COMPLETED
  | FAILED.

#[global] Instance TaskStatus_eq_dec : EqDecision TaskStatus.
Proof. solve_decision. Defined.

(** [class Task(BaseModel)] *)
Record Task : Type := mkTask {
  t_id : string;
  t_status : TaskStatus;
  t_message : string;
  t_dependencies : list string;
  t_requires_ordering : bool
}.

(** [class TaskRequest(BaseModel)] *)
Record TaskRequest : Type := mkTaskRequest {
  r_message : string;
  r_dependencies : list string;
  r_requires_ordering : bool
}.

(** [task.status = s] on a Task object *)
Definition with_status (s : TaskStatus) (t : Task) : Task :=
  mkTask (t_id t) s (t_message t) (t_dependencies t) (t_requires_ordering t).

(** JSON values, as [json.loads] returns them and [json.dumps] takes them.
    The fields of a dict have distinct keys. *)
#[warnings="-register-all"]
Inductive json : Type :=
  | JNull
  | JBool (b : bool)
  | JNum (n : Z)
  | JStr (s : string)
  | JArr (items : list json)
  | JObj (fields : list (string * json)).

(** A message body on the wire.  The byte format of JSON is not modelled:
    a body is either the encoding of a JSON value, which [json.loads] gives
    back, or bytes that [json.loads] rejects. *)
Inductive wire : Type :=
  | Encoded (j : json)
  | Garbage (raw : string).

(** The Python exceptions that the program can meet. *)
Inductive exn : Type :=
  | KeyError
  | TypeError
  | JSONDecodeError
  | AMQPError
  | WorkError
  | HTTPException (status_code : Z) (detail : string)
  | NoSuchObject.

Inductive res (A : Type) : Type :=
  | Ok (a : A)
  | Raise (e : exn).
Arguments Ok {A} a.
Arguments Raise {A} e.

(** A reference to a Task object: its position in the heap. *)
Abbreviation ref := nat (only parsing).

(** The state of the process and of its broker.
    - [heap]: the Task objects, in allocation order;
    - [tasks], [dependents]: the two module-level dicts;
    - [published]: the messages the broker has accepted, oldest first, each
      with its routing key; the position of a message is its delivery tag;
    - [acked]: the delivery tags acknowledged so far;
    - [net]: what the next broker calls of [queue_task] will meet, [true]
      for a call that goes through and [false] for one that raises; when
      the script is used up every call goes through. *)
Record World : Type := mkWorld {
  heap : list Task;
  tasks : gmap string ref;
  dependents : gmap string (list string);
  published : list (string * wire);
  acked : list nat;
  net : list bool
}.

Definition empty_world : World := mkWorld [] ∅ ∅ [] [] [].

(** [QUEUES] *)
Definition QUEUES : list (string * string) :=
  [("regular", "taskmaster.tasks.regular");
   ("ordered", "taskmaster.tasks.ordered")].

Definition QUEUE_regular : string := "taskmaster.tasks.regular".
Definition QUEUE_ordered : string := "taskmaster.tasks.ordered".

(** The Task object a key of [tasks] stands for. *)
Definition task_of (w : World) (k : string) : option Task :=
  match tasks w !! k with
  | Some l => heap w !! l
  | None => None
  end.

Definition status_of (w : World) (k : string) : option TaskStatus :=
  t_status <$> task_of w k.

(** ** Computations: state and exceptions *)

Definition M (A : Type) : Type := World -> res A * World.

Definition ret {A : Type} (a : A) : M A := fun w => (Ok a, w).

Definition raise {A : Type} (e : exn) : M A := fun w => (Raise e, w).

Definition bind {A B : Type} (m : M A) (f : A -> M B) : M B :=
  fun w =>
    match m w with
    | (Ok a, w') => f a w'
    | (Raise e, w') => (Raise e, w')
    end.

(** [try: m except Exception: h] *)
Definition try_except {A : Type} (m : M A) (h : M A) : M A :=
  fun w =>
    match m w with
    | (Ok a, w') => (Ok a, w')
    | (Raise _, w') => h w'
    end.

Notation "'let*' x ':=' m 'in' k" := (bind m (fun x => k))
  (at level 10, x name, m at level 100, k at level 200).
Notation "m '>>' k" := (bind m (fun _ => k))
  (at level 100, k at level 200, right associativity).

(** [for x in xs: body x] *)
Fixpoint for_each {A : Type} (xs : list A) (body : A -> M unit) : M unit :=
  match xs with
  | [] => ret tt
  | x :: xs' => body x >> for_each xs' body
  end.

(** *** Primitive operations on the store *)

(** [tasks[k]], the reference held by the dict *)
Definition tasks_getitem (k : string) : M ref :=
  fun w =>
    match tasks w !! k with
    | Some l => (Ok l, w)
    | None => (Raise KeyError, w)
    end.

(** [k in tasks] *)
Definition tasks_contains (k : string) : M bool :=
  fun w => (Ok (bool_decide (is_Some (tasks w !! k))), w).

(** reading the object behind a reference *)
Definition load (l : ref) : M Task :=
  fun w =>
    match heap w !! l with
    | Some t => (Ok t, w)
    | None => (Raise NoSuchObject, w)
    end.

(** [obj.status = s] *)
Definition set_status (l : ref) (s : TaskStatus) : M unit :=
  fun w =>
    match heap w !! l with
    | Some t =>
        (Ok tt, mkWorld (<[l := with_status s t]> (heap w)) (tasks w)
                        (dependents w) (published w) (acked w) (net w))
    | None => (Raise NoSuchObject, w)
    end.

(** [Task(...)]: a new object *)
Definition alloc (t : Task) : M ref :=
  fun w =>
    (Ok (length (heap w)),
     mkWorld (heap w ++ [t]) (tasks w) (dependents w) (published w)
             (acked w) (net w)).

(** [tasks[k] = obj] *)
Definition tasks_setitem (k : string) (l : ref) : M unit :=
  fun w =>
    (Ok tt, mkWorld (heap w) (<[k := l]> (tasks w)) (dependents w)
                    (published w) (acked w) (net w)).

(** [dependents.get(k, [])] *)
Definition dependents_get (k : string) : M (list string) :=
  fun w => (Ok (default [] (dependents w !! k)), w).

(** [if k not in dependents: dependents[k] = []] then
    [dependents[k].append(x)] *)
Definition dependents_append (k x : string) : M unit :=
  fun w =>
    (Ok tt, mkWorld (heap w) (tasks w)
                    (<[k := default [] (dependents w !! k) ++ [x]]>
                       (dependents w))
                    (published w) (acked w) (net w)).

(** *** Broker calls *)

(** One call to the broker from [queue_task]: it consumes one entry of the
    script and raises when the entry is [false]. *)
Definition broker_call : M unit :=
  fun w =>
    match net w with
    | [] => (Ok tt, w)
    | ok :: rest =>
        let w' := mkWorld (heap w) (tasks w) (dependents w) (published w)
                          (acked w) rest in
        if ok then (Ok tt, w') else (Raise AMQPError, w')
    end.

(** [pika.BlockingConnection(...)], [connection.channel()] and one
    [queue_declare] per queue of [QUEUES] *)
Definition get_rabbitmq_channel : M unit :=
  broker_call >>
  broker_call >>
  for_each QUEUES (fun _ => broker_call).

(** [channel.basic_publish(exchange='', routing_key=q, body=b, ...)] *)
Definition basic_publish (q : string) (b : wire) : M unit :=
  broker_call >>
  fun w =>
    (Ok tt, mkWorld (heap w) (tasks w) (dependents w)
                    (published w ++ [(q, b)]) (acked w) (net w)).

(** [connection.close()] *)
Definition connection_close : M unit := broker_call.

(** [ch.basic_ack(delivery_tag=tag)] on the consuming channel, which is
    taken to be open: the acknowledgement is recorded. *)
Definition basic_ack (tag : nat) : M unit :=
  fun w =>
    (Ok tt, mkWorld (heap w) (tasks w) (dependents w) (published w)
                    (acked w ++ [tag]) (net w)).

(** *** JSON *)

Definition json_dumps (j : json) : wire := Encoded j.

Definition json_loads (b : wire) : M json :=
  match b with
  | Encoded j => ret j
  | Garbage _ => raise JSONDecodeError
  end.

Fixpoint assoc_get (k : string) (fields : list (string * json)) : option json :=
  match fields with
  | [] => None
  | (k', v) :: rest => if String.eqb k k' then Some v else assoc_get k rest
  end.

(** [data[k]] for a string [k] on a decoded value: only a dict can be
    indexed by a string. *)
Definition json_getitem (data : json) (k : string) : M json :=
  match data with
  | JObj fields =>
      match assoc_get k fields with
      | Some v => ret v
      | None => raise KeyError
      end
  | _ => raise TypeError
  end.

(** The body [queue_task] publishes:
    [json.dumps({"task_id": task_id, "message": task.message})] *)
Definition task_body (task_id msg : string) : wire :=
  json_dumps (JObj [("task_id", JStr task_id); ("message", JStr msg)]).

(** ** The dispatcher *)

(** [any(tasks[d].status != TaskStatus.COMPLETED for d in deps)] *)
Fixpoint any_not_completed (deps : list string) : M bool :=
  match deps with
  | [] => ret false
  | d :: rest =>
      let* l := tasks_getitem d in
      let* t := load l in
      if decide (t_status t = COMPLETED) then any_not_completed rest
      else ret true
  end.

(** [all(tasks[d].status == TaskStatus.COMPLETED for d in deps)] *)
Fixpoint all_completed (deps : list string) : M bool :=
  match deps with
  | [] => ret true
  | d :: rest =>
      let* l := tasks_getitem d in
      let* t := load l in
      if decide (t_status t = COMPLETED) then all_completed rest
      else ret false
  end.

(** The [try] statement of [queue_task]: connect, publish, close and
    return True; on any exception return False. *)
Definition try_publish (task_id : string) (task : Task) : M bool :=
  try_except
    (get_rabbitmq_channel >>
     basic_publish
       (if t_requires_ordering task then QUEUE_ordered else QUEUE_regular)
       (task_body task_id (t_message task)) >>
     connection_close >>
     ret true)
    (ret false).

(** [def queue_task(task_id)] *)
Definition queue_task (task_id : string) : M bool :=
  let* l := tasks_getitem task_id in
  let* task := load l in
  let* blocked := any_not_completed (t_dependencies task) in
  if (blocked : bool) then ret false
  else try_publish task_id task.

(** ** The worker *)

(** [time.sleep(25)], the placeholder of the source for the work of a task.
    The work is an injected capability that may fail: [ok] says whether it
    returns or raises. *)
Definition time_sleep (ok : bool) : M unit :=
  if ok then ret tt else raise WorkError.

(** The body of the loop of [process_task] over the dependents:
    [if all(...): queue_task(dep_id)] *)
Definition reevaluate (dep_id : string) : M unit :=
  let* l := tasks_getitem dep_id in
  let* dep := load l in
  let* ready := all_completed (t_dependencies dep) in
  if (ready : bool) then (let* _ := queue_task dep_id in ret tt) else ret tt.

(** [def process_task(task_id)] *)
Definition process_task (work_ok : bool) (task_id : string) : M unit :=
  let* task := tasks_getitem task_id in
  set_status task IN_PROGRESS >>
  time_sleep work_ok >>
  set_status task COMPLETED >>
  let* ds := dependents_get task_id in
  for_each ds reevaluate.

(** [process_task(task_id)] when [task_id] is what the message holds under
    ["task_id"]: a string is looked up; another hashable value is not a key
    of [tasks]; a list or a dict cannot be hashed. *)
Definition process_task_of (work_ok : bool) (task_id : json) : M unit :=
  match task_id with
  | JStr k => process_task work_ok k
  | JArr _ | JObj _ => raise TypeError
  | JNull | JBool _ | JNum _ => raise KeyError
  end.

(** [if task_id in tasks: tasks[task_id].status = TaskStatus.FAILED] *)
Definition mark_failed (task_id : json) : M unit :=
  match task_id with
  | JStr k =>
      let* present := tasks_contains k in
      if (present : bool)
      then (let* l := tasks_getitem k in set_status l FAILED)
      else ret tt
  | JArr _ | JObj _ => raise TypeError
  | JNull | JBool _ | JNum _ => ret tt
  end.

(** The [except Exception] branch of [callback]. *)
Definition on_error (tag : nat) (body : wire) : M unit :=
  let* task_data := json_loads body in
  let* task_id := json_getitem task_data "task_id" in
  mark_failed task_id >>
  basic_ack tag.

(** [def callback(ch, method, properties, body)], for the delivery tag
    [method.delivery_tag] *)
Definition callback (work_ok : bool) (tag : nat) (body : wire) : M unit :=
  try_except
    (let* task_data := json_loads body in
     let* task_id := json_getitem task_data "task_id" in
     process_task_of work_ok task_id >>
     basic_ack tag)
    (on_error tag body).

(** ** Creation *)

(** The first loop of [create_task]:
    [if dep_id not in tasks: raise HTTPException(status_code=400, ...)] *)
Definition check_dependency (dep_id : string) : M unit :=
  let* present := tasks_contains dep_id in
  if (present : bool) then ret tt
  else raise (HTTPException 400
                ("Dependency " ++ dep_id ++ " not found")%string).

(** [async def create_task(request)]; [uuid] is [str(uuid.uuid4())], of
    which the identifier keeps the first eight characters. *)
Definition create_task (request : TaskRequest) (uuid : string) : M string :=
  let task_id := substring 0 8 uuid in
  for_each (r_dependencies request) check_dependency >>
  let* task := alloc (mkTask task_id PENDING (r_message request)
                             (r_dependencies request)
                             (r_requires_ordering request)) in
  tasks_setitem task_id task >>
  for_each (r_dependencies request)
           (fun dep_id => dependents_append dep_id task_id) >>
  let* _ := queue_task task_id in
  ret task_id.

(** [async def get_task(task_id)] *)
Definition get_task (task_id : string) : M Task :=
  let* present := tasks_contains task_id in
  if (present : bool)
  then (let* l := tasks_getitem task_id in load l)
  else raise (HTTPException 404 "Task not found").

(** ** The callback in two halves

    A worker is blocked in [time.sleep] while the request handler and the
    other workers run.  The callback is therefore also given in two halves:
    up to the sleep, and from the sleep on.  Lemma [callback_split] shows
    that the two halves in sequence are the callback. *)

Inductive entered : Type :=
  | Sleeping (task_id : string) (task : ref)
  | Returned.

(** The lines of [process_task] after the sleep. *)
Definition process_task_rest (task_id : string) (task : ref) : M unit :=
  set_status task COMPLETED >>
  let* ds := dependents_get task_id in
  for_each ds reevaluate.

Definition callback_enter (tag : nat) (body : wire) : M entered :=
  try_except
    (let* task_data := json_loads body in
     let* task_id := json_getitem task_data "task_id" in
     match task_id with
     | JStr k =>
         let* task := tasks_getitem k in
         set_status task IN_PROGRESS >>
         ret (Sleeping k task)
     | JArr _ | JObj _ => raise TypeError
     | JNull | JBool _ | JNum _ => raise KeyError
     end)
    (on_error tag body >> ret Returned).

Definition callback_resume (work_ok : bool) (tag : nat) (body : wire)
    (task_id : string) (task : ref) : M unit :=
  try_except
    (time_sleep work_ok >>
     process_task_rest task_id task >>
     basic_ack tag)
    (on_error tag body).

(** ** The system: request handler, broker and workers *)

(** [start_workers]: the queue each worker consumes, and its name *)
Definition workers : list (string * string) :=
  [(QUEUE_regular, "regular-0");
   (QUEUE_regular, "regular-1");
   (QUEUE_ordered, "ordered")].

(** A callback blocked in its sleep. *)
Record Frame : Type := mkFrame {
  f_tag : nat;
  f_queue : string;
  f_body : wire;
  f_task_id : string;
  f_task : ref
}.

Record System : Type := mkSystem {
  world : World;
  delivered : list nat;
  running : list Frame
}.

Definition initial : System := mkSystem empty_world [] [].

Inductive event : Type :=
  | Create (request : TaskRequest) (uuid : string) (script : list bool)
  | Deliver (tag : nat)
  | Finish (tag : nat) (work_ok : bool) (script : list bool).

Definition with_net (script : list bool) (w : World) : World :=
  mkWorld (heap w) (tasks w) (dependents w) (published w) (acked w) script.

(** The number of workers that consume queue [q]. *)
Definition consumers (q : string) : nat :=
  length (filter (fun wk => fst wk = q) workers).

(** The number of callbacks in progress on queue [q]. *)
Definition busy (q : string) (fs : list Frame) : nat :=
  length (filter (fun f => f_queue f = q) fs).

(** Every message of queue [q] published before [tag] has been delivered. *)
Definition head_of_queue (q : string) (tag : nat) (s : System) : bool :=
  forallb
    (fun i =>
       match published (world s) !! i with
       | Some (q', _) =>
           if decide (q' = q) then bool_decide (i ∈ delivered s) else true
       | None => true
       end)
    (seq 0 tag).

(** The broker hands the oldest undelivered message of a queue to a free
    worker of that queue (prefetch count 1). *)
Definition deliverable (tag : nat) (s : System) : option (string * wire) :=
  match published (world s) !! tag with
  | Some (q, body) =>
      if bool_decide (tag ∉ delivered s)
         && head_of_queue q tag s
         && bool_decide (busy q (running s) < consumers q)
      then Some (q, body) else None
  | None => None
  end.

Fixpoint take_frame (tag : nat) (fs : list Frame)
    : option (Frame * list Frame) :=
  match fs with
  | [] => None
  | f :: rest =>
      if decide (f_tag f = tag) then Some (f, rest)
      else match take_frame tag rest with
           | Some (g, rest') => Some (g, f :: rest')
           | None => None
           end
  end.

(** One step of the system; [None] when the event cannot happen.  A
    creation and each half of a callback are one step: the readiness test
    of [queue_task] and its publication fall into the same step, whereas in
    the program the broker connection between them blocks and other threads
    run (see [stale_test_publishes_after_failure]). *)
Definition sys_step (e : event) (s : System) : option System :=
  match e with
  | Create request uuid script =>
      let '(_, w') := create_task request uuid (with_net script (world s)) in
      Some (mkSystem w' (delivered s) (running s))
  | Deliver tag =>
      match deliverable tag s with
      | Some (q, body) =>
          match callback_enter tag body (world s) with
          | (Ok (Sleeping k l), w') =>
              Some (mkSystem w' (tag :: delivered s)
                             (mkFrame tag q body k l :: running s))
          | (_, w') => Some (mkSystem w' (tag :: delivered s) (running s))
          end
      | None => None
      end
  | Finish tag work_ok script =>
      match take_frame tag (running s) with
      | Some (f, rest) =>
          let '(_, w') :=
            callback_resume work_ok tag (f_body f) (f_task_id f) (f_task f)
                            (with_net script (world s)) in
          Some (mkSystem w' (delivered s) rest)
      | None => None
      end
  end.

Fixpoint run (es : list event) (s : System) : option System :=
  match es with
  | [] => Some s
  | e :: rest =>
      match sys_step e s with
      | Some s' => run rest s'
      | None => None
      end
  end.

Definition reachable (s : System) : Prop :=
  exists es, run es initial = Some s.

(** ** Vocabulary of the properties *)

(** Every dependency of the list is a task whose status is COMPLETED. *)
Definition all_deps_completed (w : World) (deps : list string) : Prop :=
  Forall (fun d => status_of w d = Some COMPLETED) deps.

(** The message [queue_task] publishes for task [t] under key [k]. *)
Definition message_for (k : string) (t : Task) : string * wire :=
  (if t_requires_ordering t then QUEUE_ordered else QUEUE_regular,
   task_body k (t_message t)).

(** The world after the broker has accepted the messages [ms]. *)
Definition with_published (ms : list (string * wire)) (w : World) : World :=
  mkWorld (heap w) (tasks w) (dependents w) (published w ++ ms) (acked w)
          (net w).

(** [a] depends on [b], directly or through other tasks. *)
Inductive depends_on (w : World) : string -> string -> Prop :=
  | depends_direct a b t :
      task_of w a = Some t -> b ∈ t_dependencies t -> depends_on w a b
  | depends_trans a b c :
      depends_on w a b -> depends_on w b c -> depends_on w a c.

(** The program state apart from the broker: both dicts and the objects. *)
Definition same_store (w w' : World) : Prop :=
  heap w' = heap w /\ tasks w' = tasks w /\ dependents w' = dependents w.

(** The part of the state [queue_task] has no access to. *)
Definition same_but_broker (w w' : World) : Prop :=
  same_store w w' /\ acked w' = acked w.

(** A task object keeps its identity, message, dependencies and flag. *)
Definition same_task (t t' : Task) : Prop :=
  t_id t' = t_id t /\ t_message t' = t_message t
  /\ t_dependencies t' = t_dependencies t
  /\ t_requires_ordering t' = t_requires_ordering t.

(** How the objects change: none disappears, and a status is either kept or
    overwritten with a status other than PENDING. *)
Definition heap_evolves (w w' : World) : Prop :=
  forall l t, heap w !! l = Some t ->
    exists t', heap w' !! l = Some t' /\ same_task t t'
               /\ (t_status t' = t_status t \/ t_status t' <> PENDING).

(** Well-formed stores: references point to objects, and the keys named in
    dependency lists and in the dependents index are keys of [tasks]. *)
Definition refs_valid (w : World) : Prop :=
  forall k l, tasks w !! k = Some l -> l < length (heap w).

Definition deps_known (w : World) : Prop :=
  forall l t d, heap w !! l = Some t -> d ∈ t_dependencies t ->
    is_Some (tasks w !! d).

Definition dependents_known (w : World) : Prop :=
  forall k ds d, dependents w !! k = Some ds -> d ∈ ds ->
    is_Some (tasks w !! d).

Definition store_ok (w : World) : Prop :=
  refs_valid w /\ deps_known w /\ dependents_known w.

Definition frames_ok (s : System) : Prop :=
  Forall (fun f => f_task f < length (heap (world s))) (running s).

Definition system_ok (s : System) : Prop :=
  store_ok (world s) /\ frames_ok s.

(** A computation respects a relation between the state before and after. *)
Definition keeps {A : Type} (R : World -> World -> Prop) (m : M A) : Prop :=
  forall w, R w (snd (m w)).

(** The messages a step of the system adds to the broker. *)
Definition newly_published (s s' : System) (ms : list (string * wire)) : Prop :=
  published (world s') = published (world s) ++ ms.

(** The dependents index after the second loop of [create_task] has
    appended [k] under every entry of [deps], in order. *)
Fixpoint register (deps : list string) (k : string)
    (m : gmap string (list string)) : gmap string (list string) :=
  match deps with
  | [] => m
  | d :: rest => register rest k (<[d := default [] (m !! d) ++ [k]]> m)
  end.

(** The task object [create_task] builds. *)
Definition new_task (request : TaskRequest) (k : string) : Task :=
  mkTask k PENDING (r_message request) (r_dependencies request)
         (r_requires_ordering request).

(** The world of [create_task] just before its call of [queue_task]. *)
Definition created (request : TaskRequest) (k : string) (w : World) : World :=
  mkWorld (heap w ++ [new_task request k])
          (<[k := length (heap w)]> (tasks w))
          (register (r_dependencies request) k (dependents w))
          (published w) (acked w) (net w).

(** The value a body holds under "task_id", when it is the encoding of a
    dict with that key. *)
Definition decode_task_id (body : wire) : option json :=
  match body with
  | Encoded (JObj fields) => assoc_get "task_id" fields
  | _ => None
  end.

(** The task under key [k] exists and all its dependencies are COMPLETED. *)
Definition ready_b (w : World) (k : string) : bool :=
  match task_of w k with
  | Some t =>
      forallb (fun d => bool_decide (status_of w d = Some COMPLETED))
              (t_dependencies t)
  | None => false
  end.

(** One message for every entry of [ds] that is ready, in the order of
    [ds]; an entry that occurs twice is considered twice. *)
Definition messages_of_ready (w : World) (ds : list string)
    : list (string * wire) :=
  flat_map (fun k =>
              match task_of w k with
              | Some t => if ready_b w k then [message_for k t] else []
              | None => []
              end) ds.

(** The world after [obj.status = s] on the object at [l]. *)
Definition with_object_status (l : ref) (s : TaskStatus) (w : World) : World :=
  mkWorld (alter (with_status s) l (heap w)) (tasks w) (dependents w)
          (published w) (acked w) (net w).

(** The world after [basic_ack] of [tag]. *)
Definition with_ack (tag : nat) (w : World) : World :=
  mkWorld (heap w) (tasks w) (dependents w) (published w) (acked w ++ [tag])
          (net w).

(** [m] is the message of a task of [w] all of whose dependencies are
    COMPLETED in [w]. *)
Definition ready_message (w : World) (m : string * wire) : Prop :=
  exists k t, m = message_for k t /\ task_of w k = Some t
              /\ forall d, d ∈ t_dependencies t ->
                           status_of w d = Some COMPLETED.

(** A change of the state that binds no key, adds no object and no index
    entry: only statuses may have been overwritten. *)
Definition status_only (w w' : World) : Prop :=
  tasks w' = tasks w /\ dependents w' = dependents w
  /\ length (heap w') = length (heap w) /\ heap_evolves w w'.

(** A change of the state that publishes nothing. *)
Definition quiet (w w' : World) : Prop := published w' = published w.

(** ** Sample stores and runs *)

Definition sample_b : Task := mkTask "b0000000" IN_PROGRESS "b" [] false.
Definition sample_a : Task := mkTask "a0000000" FAILED "a" ["b0000000"] false.

(** Task a0000000 has FAILED and waits for b0000000, which is IN_PROGRESS. *)
Definition sample_world : World :=
  mkWorld [sample_b; sample_a] {["b0000000" := 0; "a0000000" := 1]}
          {["b0000000" := ["a0000000"]]} [] [] [].

(** The same store when the broker refuses the third call. *)
Definition sample_world_down : World := with_net [true; true; false] sample_world.

(** A store with one COMPLETED task that has no dependencies. *)
Definition sample_done : World :=
  mkWorld [mkTask "a0000000" COMPLETED "m" [] false] {["a0000000" := 0]} ∅
          [] [] [].

(** The store after a first creation whose identifier is deadbeef. *)
Definition sample_first : World :=
  snd (create_task (mkTaskRequest "first" [] false)
                   "deadbeef-0000-4000-8000-000000000001" empty_world).

(** A run of the system: b0000000 is created, then a0000000 which lists
    b0000000 twice, then d0000000 which waits for a0000000.  The message of
    b0000000 is handled; a0000000 is therefore published twice.  Its first
    message is handled with success, which publishes d0000000; its second
    message is handled and the work fails. *)
Definition sample_run : list event :=
  [Create (mkTaskRequest "b" [] false)
          "b0000000-0000-4000-8000-000000000000" [];
   Create (mkTaskRequest "a" ["b0000000"; "b0000000"] false)
          "a0000000-0000-4000-8000-000000000000" [];
   Create (mkTaskRequest "d" ["a0000000"] false)
          "d0000000-0000-4000-8000-000000000000" [];
   Deliver 0; Finish 0 true [];
   Deliver 1; Finish 1 true [];
   Deliver 2; Finish 2 false []].

(** The state a run from the initial state ends in. *)
Definition state_after (es : list event) : System :=
  match run es initial with
  | Some s => s
  | None => initial
  end.

(** A thread order of the program between the steps of the model.  Both
    messages of a0000000 are being handled.  The first worker wakes, sets
    a0000000 to COMPLETED and makes the readiness tests for d0000000. *)
Definition both_running : World :=
  world (state_after (firstn 6 sample_run ++ [Deliver 2])).

Definition test_made : World := snd (set_status 1 COMPLETED both_running).

(** While the first worker waits for the broker connection, the work of
    the second worker fails and its handler runs. *)
Definition failed_meanwhile : World :=
  snd (callback_resume false 2 (task_body "a0000000" "a") "a0000000" 1
                       test_made).

(** The first worker goes on with the [try] statement of [queue_task] and
    acknowledges its message. *)
Definition published_late : World :=
  snd (basic_ack 1
         (snd (try_publish "d0000000"
                 (mkTask "d0000000" PENDING "d" ["a0000000"] false)
                 failed_meanwhile))).

(** ** Vocabulary of the further properties *)

(** Nothing is taken away: no key of [tasks], no object, no entry of a
    dependents list, no published message and no acknowledgement. *)
Definition append_only (w w' : World) : Prop :=
  (forall k, is_Some (tasks w !! k) -> is_Some (tasks w' !! k))
  /\ (forall d, default [] (dependents w !! d)
                `prefix_of` default [] (dependents w' !! d))
  /\ published w `prefix_of` published w'
  /\ acked w `prefix_of` acked w'
  /\ length (heap w) <= length (heap w').

(** A change of the state that acknowledges nothing. *)
Definition no_ack (w w' : World) : Prop := acked w' = acked w.

(** The task stored under a key carries that key as its identifier. *)
Definition ids_match (w : World) : Prop :=
  forall k t, task_of w k = Some t -> t_id t = k.

(** Every dependency edge is registered: a task is in the dependents list
    of each of its dependencies. *)
Definition index_complete (w : World) : Prop :=
  forall k t d, task_of w k = Some t -> d ∈ t_dependencies t ->
    k ∈ default [] (dependents w !! d).

(** Every published message is the body [queue_task] builds for a key of
    [tasks], on one of the two queues. *)
Definition published_known (w : World) : Prop :=
  forall q body, (q, body) ∈ published w ->
    exists k msg, body = task_body k msg /\ is_Some (tasks w !! k)
                  /\ (q = QUEUE_regular \/ q = QUEUE_ordered).

(** ** Basic facts about computations *)

Lemma bind_ok {A B : Type} (m : M A) (f : A -> M B) w a w' :
  m w = (Ok a, w') -> bind m f w = f a w'.
Proof. intros H. unfold bind. now rewrite H. Qed.

Lemma bind_raise {A B : Type} (m : M A) (f : A -> M B) w e w' :
  m w = (Raise e, w') -> bind m f w = (Raise e, w').
Proof. intros H. unfold bind. now rewrite H. Qed.

Lemma bind_assoc {A B C : Type} (m : M A) (f : A -> M B) (g : B -> M C) w :
  bind (bind m f) g w = bind m (fun a => bind (f a) g) w.
Proof. unfold bind. destruct (m w) as [[a|e] w']; reflexivity. Qed.

Section Keeps.
Context (R : World -> World -> Prop).
Hypothesis R_refl : forall w, R w w.
Hypothesis R_trans : forall a b c, R a b -> R b c -> R a c.

Lemma keeps_ret {A : Type} (a : A) : keeps R (ret a).
Proof. intros w. apply R_refl. Qed.

Lemma keeps_raise {A : Type} (e : exn) : keeps R (@raise A e).
Proof. intros w. apply R_refl. Qed.

Lemma keeps_bind {A B : Type} (m : M A) (f : A -> M B) :
  keeps R m -> (forall a, keeps R (f a)) -> keeps R (bind m f).
Proof.
  intros Hm Hf w. unfold bind. specialize (Hm w).
  destruct (m w) as [[a|e] w1]; simpl in *.
  - eapply R_trans; [exact Hm | apply Hf].
  - exact Hm.
Qed.

Lemma keeps_try {A : Type} (m h : M A) :
  keeps R m -> keeps R h -> keeps R (try_except m h).
Proof.
  intros Hm Hh w. unfold try_except. specialize (Hm w).
  destruct (m w) as [[a|e] w1]; simpl in *.
  - exact Hm.
  - eapply R_trans; [exact Hm | apply Hh].
Qed.

Lemma keeps_for_each {A : Type} (xs : list A) (body : A -> M unit) :
  (forall x, keeps R (body x)) -> keeps R (for_each xs body).
Proof.
  intros Hb. induction xs as [|x xs IH]; simpl.
  - apply keeps_ret.
  - apply keeps_bind; [apply Hb | intros _; exact IH].
Qed.

Lemma keeps_if {A : Type} (b : bool) (m1 m2 : M A) :
  keeps R m1 -> keeps R m2 -> keeps R (if b then m1 else m2).
Proof. destruct b; auto. Qed.
End Keeps.

(** ** Readiness *)

Lemma status_of_lookup w d l t :
  tasks w !! d = Some l -> heap w !! l = Some t ->
  status_of w d = Some (t_status t).
Proof. intros Hk Hl. unfold status_of, task_of. now rewrite Hk, Hl. Qed.

Lemma status_of_Some w d s :
  status_of w d = Some s <->
  exists l t, tasks w !! d = Some l /\ heap w !! l = Some t /\ t_status t = s.
Proof.
  unfold status_of, task_of. split.
  - destruct (tasks w !! d) as [l|]; [|discriminate].
    destruct (heap w !! l) as [t|] eqn:Hl; [|discriminate].
    simpl. intros [= <-]. eauto.
  - intros (l & t & -> & Hl & <-). now rewrite Hl.
Qed.

Lemma any_not_completed_state deps w :
  snd (any_not_completed deps w) = w.
Proof.
  induction deps as [|d rest IH]; simpl; [reflexivity|].
  unfold bind, tasks_getitem, load.
  destruct (tasks w !! d) as [l|]; [|reflexivity].
  destruct (heap w !! l) as [t|]; [|reflexivity].
  destruct (decide (t_status t = COMPLETED)); [exact IH | reflexivity].
Qed.

Lemma all_completed_state deps w :
  snd (all_completed deps w) = w.
Proof.
  induction deps as [|d rest IH]; simpl; [reflexivity|].
  unfold bind, tasks_getitem, load.
  destruct (tasks w !! d) as [l|]; [|reflexivity].
  destruct (heap w !! l) as [t|]; [|reflexivity].
  destruct (decide (t_status t = COMPLETED)); [exact IH | reflexivity].
Qed.

Lemma any_not_completed_false_iff deps w :
  any_not_completed deps w = (Ok false, w) <-> all_deps_completed w deps.
Proof.
  unfold all_deps_completed.
  induction deps as [|d rest IH]; simpl.
  - split; [constructor | reflexivity].
  - rewrite Forall_cons. unfold bind, tasks_getitem, load.
    destruct (tasks w !! d) as [l|] eqn:Hk.
    + destruct (heap w !! l) as [t|] eqn:Hl.
      * rewrite (status_of_lookup _ _ _ _ Hk Hl).
        destruct (decide (t_status t = COMPLETED)) as [Hc|Hc].
        -- rewrite IH, Hc. tauto.
        -- split; [discriminate | intros [[=] _]; contradiction].
      * split; [discriminate|].
        intros [H _]. apply status_of_Some in H as (l' & t & Hk' & Hl' & _).
        congruence.
    + split; [discriminate|].
      intros [H _]. apply status_of_Some in H as (l' & t & Hk' & _).
      congruence.
Qed.

Lemma all_completed_true_iff deps w :
  all_completed deps w = (Ok true, w) <-> all_deps_completed w deps.
Proof.
  unfold all_deps_completed.
  induction deps as [|d rest IH]; simpl.
  - split; [constructor | reflexivity].
  - rewrite Forall_cons. unfold bind, tasks_getitem, load.
    destruct (tasks w !! d) as [l|] eqn:Hk.
    + destruct (heap w !! l) as [t|] eqn:Hl.
      * rewrite (status_of_lookup _ _ _ _ Hk Hl).
        destruct (decide (t_status t = COMPLETED)) as [Hc|Hc].
        -- rewrite IH, Hc. tauto.
        -- split; [discriminate | intros [[=] _]; contradiction].
      * split; [discriminate|].
        intros [H _]. apply status_of_Some in H as (l' & t & Hk' & Hl' & _).
        congruence.
    + split; [discriminate|].
      intros [H _]. apply status_of_Some in H as (l' & t & Hk' & _).
      congruence.
Qed.

(** When every dependency is a task of the store the two checks return, and
    they return opposite answers. *)
Lemma readiness_checks_agree deps w :
  Forall (fun d => is_Some (task_of w d)) deps ->
  exists b, all_completed deps w = (Ok b, w)
            /\ any_not_completed deps w = (Ok (negb b), w)
            /\ (b = true <-> all_deps_completed w deps).
Proof.
  unfold all_deps_completed.
  induction deps as [|d rest IH]; simpl; intros Hp.
  - exists true. repeat split; constructor.
  - apply Forall_cons in Hp as [[t Ht] Hrest].
    destruct (IH Hrest) as (b & Hall & Hany & Hb).
    unfold bind, tasks_getitem, load. unfold task_of in Ht.
    destruct (tasks w !! d) as [l|] eqn:Hk; [|discriminate].
    rewrite Ht.
    destruct (decide (t_status t = COMPLETED)) as [Hc|Hc].
    + exists b. repeat split; auto.
      * intros ->. constructor; [|now apply Hb].
        rewrite (status_of_lookup _ _ _ _ Hk Ht). now rewrite Hc.
      * intros H. apply Forall_cons in H as [_ H]. now apply Hb.
    + exists false. repeat split; auto; try discriminate.
      intros H. apply Forall_cons in H as [H _].
      rewrite (status_of_lookup _ _ _ _ Hk Ht) in H. congruence.
Qed.

(** ** The dispatcher *)

Lemma same_but_broker_refl w : same_but_broker w w.
Proof. repeat split. Qed.

Lemma same_but_broker_trans a b c :
  same_but_broker a b -> same_but_broker b c -> same_but_broker a c.
Proof.
  unfold same_but_broker, same_store.
  intros (([=] & [=] & [=]) & [=]) (([=] & [=] & [=]) & [=]).
  repeat split; congruence.
Qed.

Lemma broker_call_frame : keeps same_but_broker broker_call.
Proof.
  intros w. unfold broker_call.
  destruct (net w) as [|[] rest]; repeat split.
Qed.

Lemma basic_publish_frame q b : keeps same_but_broker (basic_publish q b).
Proof.
  intros w. unfold basic_publish, bind, broker_call.
  destruct (net w) as [|[] rest]; repeat split.
Qed.

Lemma try_publish_frame k t : keeps same_but_broker (try_publish k t).
Proof.
  pose proof same_but_broker_refl as Hr.
  pose proof same_but_broker_trans as Ht.
  unfold try_publish, get_rabbitmq_channel, connection_close.
  repeat first
    [ apply keeps_try | apply keeps_bind | intros _ | apply keeps_for_each
    | apply keeps_ret | apply broker_call_frame | apply basic_publish_frame ];
    assumption.
Qed.

(** With the broker reachable the message is published and the answer is
    True. *)
Lemma try_publish_up k t w :
  net w = [] ->
  try_publish k t w = (Ok true, with_published [message_for k t] w).
Proof.
  destruct w as [h ts ds p a n]. simpl. intros ->. reflexivity.
Qed.

(** A failure of the connection, of the channel, of a declaration or of the
    publication itself: nothing is published and the answer is False. *)
Lemma try_publish_down k t w i :
  i < 5 -> net w !! i = Some false ->
  exists n, try_publish k t w = (Ok false, with_net n w).
Proof.
  destruct w as [h ts ds p a n]. simpl. intros Hi Hn.
  unfold try_publish, try_except, get_rabbitmq_channel, basic_publish,
    connection_close, with_net, bind, broker_call; simpl.
  destruct n as [|[] n]; [discriminate| |eexists; reflexivity].
  destruct i as [|i]; [discriminate|]. simpl in Hn.
  destruct n as [|[] n]; [discriminate| |eexists; reflexivity].
  destruct i as [|i]; [discriminate|]. simpl in Hn.
  destruct n as [|[] n]; [discriminate| |eexists; reflexivity].
  destruct i as [|i]; [discriminate|]. simpl in Hn.
  destruct n as [|[] n]; [discriminate| |eexists; reflexivity].
  destruct i as [|i]; [discriminate|]. simpl in Hn.
  destruct n as [|[] n]; [discriminate| |eexists; reflexivity].
  destruct i as [|i]; [discriminate|]. lia.
Qed.

(** Whatever the broker does, the attempt returns, and it adds at most the
    message of the task. *)
Lemma try_publish_total k t w :
  exists b w', try_publish k t w = (Ok b, w')
    /\ (published w' = published w
        \/ published w' = published w ++ [message_for k t])
    /\ (b = true -> published w' = published w ++ [message_for k t]).
Proof.
  destruct w as [h ts ds p a n].
  unfold try_publish, try_except, get_rabbitmq_channel, basic_publish,
    connection_close, bind, broker_call; simpl.
  do 6 (destruct n as [|[] n];
        [ do 2 eexists; split; [reflexivity|split; [right|]; reflexivity]
        | | do 2 eexists; split;
            [reflexivity|split; [first [left; reflexivity | right; reflexivity]
                                |discriminate]]]).
  do 2 eexists; split; [reflexivity|split; [right|]; reflexivity].
Qed.

Lemma task_of_Some w k t :
  task_of w k = Some t <->
  exists l, tasks w !! k = Some l /\ heap w !! l = Some t.
Proof.
  unfold task_of. split.
  - destruct (tasks w !! k) as [l|]; [eauto | discriminate].
  - intros (l & -> & Hl). exact Hl.
Qed.

Lemma queue_task_frame k : keeps same_but_broker (queue_task k).
Proof.
  intros w. unfold queue_task, bind, tasks_getitem, load.
  destruct (tasks w !! k) as [l|]; [|apply same_but_broker_refl].
  destruct (heap w !! l) as [t|]; [|apply same_but_broker_refl].
  pose proof (any_not_completed_state (t_dependencies t) w) as Hs.
  destruct (any_not_completed (t_dependencies t) w) as [[[]|e] w1];
    simpl in Hs; subst w1; try apply same_but_broker_refl.
  apply try_publish_frame.
Qed.

(** A ready task goes to the [try] statement. *)
Lemma queue_task_ready w k t :
  task_of w k = Some t -> all_deps_completed w (t_dependencies t) ->
  queue_task k w = try_publish k t w.
Proof.
  intros Ht Hr. apply task_of_Some in Ht as (l & Hk & Hl).
  apply any_not_completed_false_iff in Hr.
  unfold queue_task, bind, tasks_getitem, load. now rewrite Hk, Hl, Hr.
Qed.

(** A task that is not ready changes nothing, and the answer is not True. *)
Lemma queue_task_blocked w k t :
  task_of w k = Some t -> ~ all_deps_completed w (t_dependencies t) ->
  exists r, queue_task k w = (r, w) /\ r <> Ok true.
Proof.
  intros Ht Hr. apply task_of_Some in Ht as (l & Hk & Hl).
  rewrite <- any_not_completed_false_iff in Hr.
  pose proof (any_not_completed_state (t_dependencies t) w) as Hs.
  unfold queue_task, bind, tasks_getitem, load. rewrite Hk, Hl.
  destruct (any_not_completed (t_dependencies t) w) as [[[]|e] w1];
    simpl in Hs; subst w1.
  - eexists; split; [reflexivity | discriminate].
  - contradiction.
  - eexists; split; [reflexivity | discriminate].
Qed.

Lemma queue_task_blocked_false w k t :
  task_of w k = Some t ->
  Forall (fun d => is_Some (task_of w d)) (t_dependencies t) ->
  ~ all_deps_completed w (t_dependencies t) ->
  queue_task k w = (Ok false, w).
Proof.
  intros Ht Hp Hr. apply task_of_Some in Ht as (l & Hk & Hl).
  destruct (readiness_checks_agree _ _ Hp) as (b & _ & Hany & Hb).
  unfold queue_task, bind, tasks_getitem, load. rewrite Hk, Hl, Hany.
  destruct b; [|reflexivity]. exfalso. apply Hr. now apply Hb.
Qed.

(** What [queue_task] can add to the broker: nothing, or the message of a
    task all of whose dependencies are COMPLETED. *)
Lemma queue_task_published k w :
  published (snd (queue_task k w)) = published w
  \/ exists t, task_of w k = Some t
       /\ all_deps_completed w (t_dependencies t)
       /\ published (snd (queue_task k w)) = published w ++ [message_for k t].
Proof.
  destruct (task_of w k) as [t|] eqn:Ht.
  - destruct (decide (all_deps_completed w (t_dependencies t))) as [Hr|Hr].
    + rewrite (queue_task_ready _ _ _ Ht Hr).
      destruct (try_publish_total k t w) as (b & w' & -> & [Hp|Hp] & _);
        simpl; [now left | right; eauto].
    + destruct (queue_task_blocked _ _ _ Ht Hr) as (r & -> & _). now left.
  - left. unfold queue_task, bind, tasks_getitem, load.
    unfold task_of in Ht.
    destruct (tasks w !! k) as [l|]; [|reflexivity]. now rewrite Ht.
Qed.

(** C1 as stated fails: a COMPLETED task without dependencies is published
    by [queue_task], which answers True. *)
Lemma queue_task_republishes_completed :
  ~ (forall w k t,
       task_of w k = Some t -> t_status t <> PENDING ->
       exists w', queue_task k w = (Ok false, w')
                  /\ published w' = published w).
Proof.
  intros H.
  destruct (H sample_done "a0000000" (mkTask "a0000000" COMPLETED "m" [] false))
    as (w' & Hq & _).
  - reflexivity.
  - discriminate.
  - vm_compute in Hq. discriminate.
Qed.

(** C1, amended: [queue_task] looks at the dependencies of the task and
    never at the status of the task itself.  A task with a dependency that
    is not COMPLETED is left alone, nothing is published and the answer is
    False, whatever its own status; a task whose dependencies are all
    COMPLETED is published and the answer is True when the broker is
    reachable, whatever its own status. *)
Theorem queue_task_checks_dependencies_only w k t :
  task_of w k = Some t ->
  Forall (fun d => is_Some (task_of w d)) (t_dependencies t) ->
  (Exists (fun d => status_of w d <> Some COMPLETED) (t_dependencies t) ->
   queue_task k w = (Ok false, w))
  /\ (all_deps_completed w (t_dependencies t) -> net w = [] ->
      queue_task k w = (Ok true, with_published [message_for k t] w)).
Proof.
  intros Ht Hp. split.
  - intros Hex. apply queue_task_blocked_false with t; auto.
    intros Hall. apply Exists_exists in Hex as (d & Hd & Hne).
    unfold all_deps_completed in Hall. rewrite Forall_forall in Hall.
    apply Hne, Hall, Hd.
  - intros Hr Hn. rewrite (queue_task_ready _ _ _ Ht Hr).
    now apply try_publish_up.
Qed.

Lemma queue_task_checks_dependencies_only_witness :
  queue_task "a0000000" sample_world = (Ok false, sample_world)
  /\ queue_task "b0000000" sample_world
     = (Ok true, with_published [message_for "b0000000" sample_b] sample_world).
Proof.
  split.
  - apply (queue_task_checks_dependencies_only sample_world "a0000000" sample_a).
    + reflexivity.
    + repeat constructor. exists sample_b. reflexivity.
    + constructor. vm_compute. discriminate.
  - apply (queue_task_checks_dependencies_only sample_world "b0000000" sample_b).
    + reflexivity.
    + constructor.
    + constructor.
    + reflexivity.
Defined.

(** C8: for a ready task, when the connection, the channel, a queue
    declaration or the publication fails, [queue_task] answers False; the
    task objects, both dicts, the published messages and the
    acknowledgements are as before (only the broker script has advanced),
    so the task keeps its status. *)
Theorem queue_task_publish_failure w k t i :
  task_of w k = Some t ->
  all_deps_completed w (t_dependencies t) ->
  i < 5 -> net w !! i = Some false ->
  exists n, queue_task k w = (Ok false, with_net n w)
            /\ task_of (with_net n w) k = Some t
            /\ same_store w (with_net n w)
            /\ published (with_net n w) = published w
            /\ acked (with_net n w) = acked w.
Proof.
  intros Ht Hr Hi Hn.
  destruct (try_publish_down k t w i Hi Hn) as (n & Hq).
  exists n. rewrite (queue_task_ready _ _ _ Ht Hr), Hq.
  repeat split. exact Ht.
Qed.

Lemma queue_task_publish_failure_witness :
  exists n, queue_task "b0000000" sample_world_down
              = (Ok false, with_net n sample_world_down)
            /\ task_of (with_net n sample_world_down) "b0000000" = Some sample_b
            /\ same_store sample_world_down (with_net n sample_world_down)
            /\ published (with_net n sample_world_down)
               = published sample_world_down
            /\ acked (with_net n sample_world_down) = acked sample_world_down.
Proof.
  apply (queue_task_publish_failure sample_world_down "b0000000" sample_b 2).
  - reflexivity.
  - constructor.
  - lia.
  - reflexivity.
Defined.

(** When only [connection.close()] fails, the message has been published
    and the answer is nevertheless False. *)
Lemma queue_task_close_failure w k t :
  task_of w k = Some t -> all_deps_completed w (t_dependencies t) ->
  net w = [true; true; true; true; true; false] ->
  queue_task k w
  = (Ok false, with_published [message_for k t] (with_net [] w)).
Proof.
  intros Ht Hr Hn. rewrite (queue_task_ready _ _ _ Ht Hr).
  destruct w as [h ts ds p a n]. simpl in Hn. subst n. reflexivity.
Qed.

(** ** Creation *)

Lemma check_dependencies_ok deps w :
  Forall (fun d => is_Some (tasks w !! d)) deps ->
  for_each deps check_dependency w = (Ok tt, w).
Proof.
  induction deps as [|d rest IH]; simpl; intros Hp; [reflexivity|].
  apply Forall_cons in Hp as [Hd Hrest].
  unfold bind at 1. unfold check_dependency, bind, tasks_contains.
  rewrite bool_decide_eq_true_2 by exact Hd. simpl. now apply IH.
Qed.

Lemma check_dependencies_fail deps w :
  Exists (fun d => tasks w !! d = None) deps ->
  exists d, d ∈ deps /\ tasks w !! d = None
    /\ for_each deps check_dependency w
       = (Raise (HTTPException 400
                   ("Dependency " ++ d ++ " not found")%string), w).
Proof.
  induction deps as [|d rest IH]; simpl; intros Hex.
  - inversion Hex.
  - unfold bind at 1. unfold check_dependency, bind, tasks_contains.
    destruct (tasks w !! d) as [l|] eqn:Hd.
    + rewrite bool_decide_eq_true_2 by eauto. simpl.
      apply Exists_cons in Hex as [Hex|Hex]; [congruence|].
      destruct (IH Hex) as (d' & Hin & Hn & Hrun).
      exists d'. split; [apply elem_of_cons; now right | now split].
    + rewrite bool_decide_eq_false_2 by (intros [? ?]; discriminate). simpl.
      exists d. split; [apply elem_of_cons; now left | now split].
Qed.

Lemma for_each_append deps k w :
  for_each deps (fun d => dependents_append d k) w
  = (Ok tt, mkWorld (heap w) (tasks w) (register deps k (dependents w))
                    (published w) (acked w) (net w)).
Proof.
  revert w. induction deps as [|d rest IH]; intros w; simpl.
  - now destruct w.
  - unfold bind at 1. unfold dependents_append at 1. now rewrite IH.
Qed.

Lemma register_lookup deps k m d :
  default [] (register deps k m !! d)
  = default [] (m !! d) ++ replicate (count_occ string_dec deps d) k.
Proof.
  revert m. induction deps as [|d' rest IH]; intros m; simpl.
  - now rewrite app_nil_r.
  - rewrite IH. destruct (string_dec d' d) as [->|Hne].
    + rewrite lookup_insert_eq. simpl. now rewrite <- app_assoc.
    + now rewrite lookup_insert_ne.
Qed.

(** Once the dependencies are known, creation builds the object, binds the
    key, extends the index and ends with [queue_task]. *)
Lemma create_task_run request uuid w :
  Forall (fun d => is_Some (tasks w !! d)) (r_dependencies request) ->
  create_task request uuid w
  = match queue_task (substring 0 8 uuid)
                     (created request (substring 0 8 uuid) w) with
    | (Ok _, w') => (Ok (substring 0 8 uuid), w')
    | (Raise e, w') => (Raise e, w')
    end.
Proof.
  intros Hp. unfold create_task.
  unfold bind at 1. rewrite (check_dependencies_ok _ _ Hp).
  unfold bind at 1. unfold alloc at 1.
  unfold bind at 1. unfold tasks_setitem at 1.
  unfold bind at 1. rewrite for_each_append. simpl.
  unfold bind, created, new_task, ret.
  destruct (queue_task _ _) as [[b|e] w']; reflexivity.
Qed.

Lemma created_task_of request k w :
  task_of (created request k w) k = Some (new_task request k).
Proof.
  unfold task_of, created; simpl. rewrite lookup_insert_eq.
  apply list_lookup_middle. reflexivity.
Qed.

(** C4: a request that names a dependency absent from [tasks] is rejected
    with the 400 error naming an absent dependency, and the state is
    exactly the state before: no object, no key and no index entry has been
    added, so both dicts have the size they had. *)
Theorem create_task_unknown_dependency request uuid w :
  Exists (fun d => tasks w !! d = None) (r_dependencies request) ->
  exists d w',
    d ∈ r_dependencies request /\ tasks w !! d = None
    /\ create_task request uuid w
       = (Raise (HTTPException 400
                   ("Dependency " ++ d ++ " not found")%string), w')
    /\ w' = w
    /\ size (tasks w') = size (tasks w)
    /\ size (dependents w') = size (dependents w).
Proof.
  intros Hex.
  destruct (check_dependencies_fail _ _ Hex) as (d & Hin & Hn & Hrun).
  exists d, w. repeat split; auto.
  unfold create_task. unfold bind at 1. now rewrite Hrun.
Qed.

Lemma create_task_unknown_dependency_witness :
  exists d w',
    d ∈ ["b0000000"; "nonexistent"] /\ tasks sample_world !! d = None
    /\ create_task (mkTaskRequest "m" ["b0000000"; "nonexistent"] false)
                   "c0000000-0000-4000-8000-000000000000" sample_world
       = (Raise (HTTPException 400
                   ("Dependency " ++ d ++ " not found")%string), w')
    /\ w' = sample_world
    /\ size (tasks w') = size (tasks sample_world)
    /\ size (dependents w') = size (dependents sample_world).
Proof.
  apply (create_task_unknown_dependency
           (mkTaskRequest "m" ["b0000000"; "nonexistent"] false)
           "c0000000-0000-4000-8000-000000000000" sample_world).
  simpl. apply Exists_cons_tl, Exists_cons_hd. reflexivity.
Defined.

Lemma task_of_same_store w w' k :
  same_store w w' -> task_of w' k = task_of w k.
Proof. intros (Hh & Ht & _). unfold task_of. now rewrite Hh, Ht. Qed.

(** On a task whose dependencies are all tasks of the store, [queue_task]
    returns, and it touches nothing but the broker. *)
Lemma queue_task_total w k t :
  task_of w k = Some t ->
  Forall (fun d => is_Some (task_of w d)) (t_dependencies t) ->
  exists b w', queue_task k w = (Ok b, w') /\ same_but_broker w w'.
Proof.
  intros Ht Hp.
  destruct (decide (all_deps_completed w (t_dependencies t))) as [Hr|Hr].
  - destruct (try_publish_total k t w) as (b & w' & Hq & _).
    exists b, w'. rewrite (queue_task_ready _ _ _ Ht Hr). split; [exact Hq|].
    pose proof (try_publish_frame k t w) as Hf. now rewrite Hq in Hf.
  - exists false, w. split; [now apply queue_task_blocked_false with t|].
    apply same_but_broker_refl.
Qed.

Lemma created_keeps_tasks request k w k' t :
  tasks w !! k = None -> task_of w k' = Some t ->
  task_of (created request k w) k' = Some t.
Proof.
  intros Hfresh Ht. apply task_of_Some in Ht as (l & Hk & Hl).
  apply task_of_Some. exists l. simpl. split.
  - rewrite lookup_insert_ne; [exact Hk | congruence].
  - now apply lookup_app_l_Some.
Qed.

(** C3: the readiness check of [queue_task] (no dependency with a status
    other than COMPLETED) and the one of [process_task] (all dependencies
    COMPLETED) hold exactly when every dependency of the task has status
    COMPLETED; and a request without dependencies always succeeds and
    leaves a PENDING task for which both checks hold. *)
Theorem readiness_iff_dependencies_completed :
  (forall w k t, task_of w k = Some t ->
     (any_not_completed (t_dependencies t) w = (Ok false, w)
      <-> all_deps_completed w (t_dependencies t))
     /\ (all_completed (t_dependencies t) w = (Ok true, w)
         <-> all_deps_completed w (t_dependencies t)))
  /\ (forall request uuid w, r_dependencies request = [] ->
        exists w' t,
          create_task request uuid w = (Ok (substring 0 8 uuid), w')
          /\ task_of w' (substring 0 8 uuid) = Some t
          /\ t_status t = PENDING
          /\ t_dependencies t = []
          /\ any_not_completed (t_dependencies t) w' = (Ok false, w')
          /\ all_completed (t_dependencies t) w' = (Ok true, w')).
Proof.
  split.
  - intros w k t _. split.
    + apply any_not_completed_false_iff.
    + apply all_completed_true_iff.
  - intros request uuid w Hnil.
    set (k := substring 0 8 uuid).
    assert (Hrun := create_task_run request uuid w). fold k in Hrun.
    rewrite Hnil in Hrun. specialize (Hrun ltac:(constructor)).
    pose proof (created_task_of request k w) as Ht.
    destruct (queue_task_total (created request k w) k _ Ht)
      as (b & w' & Hq & Hsame & _).
    { simpl. rewrite Hnil. constructor. }
    rewrite Hq in Hrun.
    exists w', (new_task request k). split; [exact Hrun|].
    rewrite (task_of_same_store _ _ _ Hsame). split; [exact Ht|].
    simpl. rewrite Hnil. repeat split.
Qed.

Lemma readiness_iff_dependencies_completed_witness :
  ((any_not_completed (t_dependencies sample_a) sample_world
    = (Ok false, sample_world)
    <-> all_deps_completed sample_world (t_dependencies sample_a))
   /\ (all_completed (t_dependencies sample_a) sample_world
       = (Ok true, sample_world)
       <-> all_deps_completed sample_world (t_dependencies sample_a)))
  /\ exists w' t,
       create_task (mkTaskRequest "first" [] false)
                   "deadbeef-0000-4000-8000-000000000001" empty_world
       = (Ok (substring 0 8 "deadbeef-0000-4000-8000-000000000001"), w')
       /\ task_of w' (substring 0 8 "deadbeef-0000-4000-8000-000000000001")
          = Some t
       /\ t_status t = PENDING
       /\ t_dependencies t = []
       /\ any_not_completed (t_dependencies t) w' = (Ok false, w')
       /\ all_completed (t_dependencies t) w' = (Ok true, w').
Proof.
  split.
  - apply (proj1 readiness_iff_dependencies_completed
             sample_world "a0000000" sample_a).
    reflexivity.
  - apply (proj2 readiness_iff_dependencies_completed
             (mkTaskRequest "first" [] false)
             "deadbeef-0000-4000-8000-000000000001" empty_world).
    reflexivity.
Defined.

(** C9 as stated fails: two different UUIDs that share their first eight
    characters give the same identifier; the second creation succeeds, the
    key was already present, and it now stands for the second task. *)
Lemma create_task_identifier_collision :
  ~ (forall request uuid w k w',
       create_task request uuid w = (Ok k, w') ->
       tasks w !! k = None
       /\ forall k' t, task_of w k' = Some t -> task_of w' k' = Some t).
Proof.
  intros H.
  destruct (H (mkTaskRequest "second" [] false)
              "deadbeef-0000-4000-8000-000000000002" sample_first "deadbeef"
              (snd (create_task (mkTaskRequest "second" [] false)
                      "deadbeef-0000-4000-8000-000000000002" sample_first)))
    as [Hfresh _].
  - vm_compute. reflexivity.
  - vm_compute in Hfresh. discriminate.
Qed.

(** C9, amended: the identifier is the first eight characters of the UUID.
    When that identifier is not yet a key of [tasks], creation succeeds,
    binds it to a new object with status PENDING, and every task the store
    held is still there under its key, unchanged; [tasks] has one key
    more. *)
Theorem create_task_fresh_identifier request uuid w :
  tasks w !! substring 0 8 uuid = None ->
  Forall (fun d => is_Some (task_of w d)) (r_dependencies request) ->
  exists w',
    create_task request uuid w = (Ok (substring 0 8 uuid), w')
    /\ task_of w' (substring 0 8 uuid)
       = Some (new_task request (substring 0 8 uuid))
    /\ heap w' = heap w ++ [new_task request (substring 0 8 uuid)]
    /\ tasks w' = <[substring 0 8 uuid := length (heap w)]> (tasks w)
    /\ (forall k' t, task_of w k' = Some t -> task_of w' k' = Some t)
    /\ size (tasks w') = S (size (tasks w)).
Proof.
  set (k := substring 0 8 uuid). intros Hfresh Hp.
  assert (Hkeys : Forall (fun d => is_Some (tasks w !! d))
                         (r_dependencies request)).
  { eapply Forall_impl; [exact Hp|]. intros d [t Ht].
    apply task_of_Some in Ht as (l & Hl & _). eauto. }
  pose proof (create_task_run request uuid w Hkeys) as Hrun. fold k in Hrun.
  pose proof (created_task_of request k w) as Ht.
  destruct (queue_task_total (created request k w) k _ Ht)
    as (b & w' & Hq & (Hh & Hts & Hds) & _).
  { simpl. eapply Forall_impl; [exact Hp|]. intros d [t Hd].
    exists t. now apply created_keeps_tasks. }
  rewrite Hq in Hrun. exists w'. split; [exact Hrun|].
  assert (Hsame : same_store (created request k w) w') by now repeat split.
  split; [now rewrite (task_of_same_store _ _ _ Hsame)|].
  split; [exact Hh|]. split; [exact Hts|]. split.
  - intros k' t Hk'. rewrite (task_of_same_store _ _ _ Hsame).
    now apply created_keeps_tasks.
  - rewrite Hts. simpl. now apply map_size_insert_None.
Qed.

Lemma create_task_fresh_identifier_witness :
  exists w',
    create_task (mkTaskRequest "c" ["b0000000"] true)
                "c0000000-0000-4000-8000-000000000000" sample_world
    = (Ok (substring 0 8 "c0000000-0000-4000-8000-000000000000"), w')
    /\ task_of w' (substring 0 8 "c0000000-0000-4000-8000-000000000000")
       = Some (new_task (mkTaskRequest "c" ["b0000000"] true)
                 (substring 0 8 "c0000000-0000-4000-8000-000000000000"))
    /\ heap w' = heap sample_world
                 ++ [new_task (mkTaskRequest "c" ["b0000000"] true)
                       (substring 0 8 "c0000000-0000-4000-8000-000000000000")]
    /\ tasks w' = <[substring 0 8 "c0000000-0000-4000-8000-000000000000"
                    := length (heap sample_world)]> (tasks sample_world)
    /\ (forall k' t, task_of sample_world k' = Some t ->
                     task_of w' k' = Some t)
    /\ size (tasks w') = S (size (tasks sample_world)).
Proof.
  apply (create_task_fresh_identifier (mkTaskRequest "c" ["b0000000"] true)
           "c0000000-0000-4000-8000-000000000000" sample_world).
  - reflexivity.
  - repeat constructor. exists sample_b. reflexivity.
Defined.

(** ** The worker *)

Lemma set_status_run l s t w :
  heap w !! l = Some t ->
  set_status l s w = (Ok tt, with_object_status l s w).
Proof.
  intros Hl. unfold set_status, with_object_status. rewrite Hl.
  do 2 f_equal. apply list_eq. intros i.
  destruct (decide (i = l)) as [Heq|Hne].
  - subst i. rewrite list_lookup_alter_eq, Hl. simpl.
    apply list_lookup_insert_eq. now apply lookup_lt_Some with t.
  - rewrite list_lookup_alter_ne, list_lookup_insert_ne; auto.
Qed.

Lemma with_object_status_twice l s s' w :
  with_object_status l s' (with_object_status l s w)
  = with_object_status l s' w.
Proof.
  unfold with_object_status; simpl. f_equal.
  rewrite list_alter_alter_eq. apply list_alter_ext; auto.
Qed.

Lemma with_object_status_lookup l s w t :
  heap w !! l = Some t ->
  heap (with_object_status l s w) !! l = Some (with_status s t).
Proof. intros Hl. simpl. now rewrite list_lookup_alter_eq, Hl. Qed.

Lemma callback_decoded work_ok tag body j w :
  decode_task_id body = Some j ->
  callback work_ok tag body w
  = try_except (process_task_of work_ok j >> basic_ack tag)
               (mark_failed j >> basic_ack tag) w.
Proof.
  destruct body as [[| | | | |fields]|raw]; simpl; try discriminate.
  intros H.
  cbv [callback on_error try_except bind json_loads ret json_getitem].
  rewrite H.
  destruct (process_task_of work_ok j w) as [[[]|e] w1]; reflexivity.
Qed.

Lemma process_task_work_fails k l t w :
  tasks w !! k = Some l -> heap w !! l = Some t ->
  process_task false k w = (Raise WorkError, with_object_status l IN_PROGRESS w).
Proof.
  intros Hk Hl. unfold process_task.
  erewrite bind_ok by (unfold tasks_getitem; rewrite Hk; reflexivity).
  erewrite bind_ok by (apply set_status_run with t; exact Hl).
  reflexivity.
Qed.

Lemma mark_failed_run k l t w :
  tasks w !! k = Some l -> heap w !! l = Some t ->
  mark_failed (JStr k) w = (Ok tt, with_object_status l FAILED w).
Proof.
  intros Hk Hl. unfold mark_failed. cbv beta iota.
  erewrite bind_ok
    by (unfold tasks_contains; rewrite bool_decide_eq_true_2 by eauto;
        reflexivity).
  cbv beta iota.
  erewrite bind_ok by (unfold tasks_getitem; rewrite Hk; reflexivity).
  apply set_status_run with t. exact Hl.
Qed.

Lemma mark_failed_absent k w :
  tasks w !! k = None -> mark_failed (JStr k) w = (Ok tt, w).
Proof.
  intros Hk. unfold mark_failed. cbv beta iota.
  erewrite bind_ok
    by (unfold tasks_contains;
        rewrite bool_decide_eq_false_2 by (rewrite Hk; intros [? ?]; discriminate);
        reflexivity).
  reflexivity.
Qed.

(** C6: when the work of the task of a message raises, the callback sets
    the task to FAILED and acknowledges the message; nothing is published,
    so no dependent is dispatched, and nothing else changes. *)
Theorem callback_work_failure tag body k l t w :
  decode_task_id body = Some (JStr k) ->
  tasks w !! k = Some l -> heap w !! l = Some t ->
  callback false tag body w
  = (Ok tt, with_ack tag (with_object_status l FAILED w))
  /\ status_of (with_ack tag (with_object_status l FAILED w)) k = Some FAILED
  /\ published (with_ack tag (with_object_status l FAILED w)) = published w
  /\ acked (with_ack tag (with_object_status l FAILED w)) = acked w ++ [tag].
Proof.
  intros Hd Hk Hl. split; [|split; [|split; reflexivity]].
  - rewrite (callback_decoded _ _ _ _ _ Hd).
    unfold try_except, process_task_of. cbv beta iota.
    erewrite bind_raise by (eapply process_task_work_fails; eauto).
    erewrite bind_ok
      by (eapply mark_failed_run;
          [exact Hk | apply with_object_status_lookup; exact Hl]).
    rewrite with_object_status_twice. reflexivity.
  - unfold status_of, task_of; simpl. rewrite Hk.
    now rewrite list_lookup_alter_eq, Hl.
Qed.

Lemma callback_work_failure_witness :
  callback false 7 (task_body "b0000000" "b") sample_world
  = (Ok tt, with_ack 7 (with_object_status 0 FAILED sample_world))
  /\ status_of (with_ack 7 (with_object_status 0 FAILED sample_world))
               "b0000000" = Some FAILED
  /\ published (with_ack 7 (with_object_status 0 FAILED sample_world))
     = published sample_world
  /\ acked (with_ack 7 (with_object_status 0 FAILED sample_world))
     = acked sample_world ++ [7].
Proof.
  apply (callback_work_failure 7 (task_body "b0000000" "b") "b0000000" 0
           sample_b sample_world); reflexivity.
Defined.

(** C7 fails on the code: for a body that [json.loads] rejects, the handler
    of the callback decodes the body again, so the error leaves the
    callback before [basic_ack]; the state is unchanged and the message is
    not acknowledged. *)
Theorem callback_undecodable_not_acked work_ok tag raw w :
  callback work_ok tag (Garbage raw) w = (Raise JSONDecodeError, w)
  /\ acked (snd (callback work_ok tag (Garbage raw) w)) = acked w.
Proof. split; reflexivity. Qed.

(** A message for a key that [tasks] does not hold is acknowledged without
    any other effect. *)
Lemma callback_unknown_task work_ok tag body k w :
  decode_task_id body = Some (JStr k) -> tasks w !! k = None ->
  callback work_ok tag body w = (Ok tt, with_ack tag w).
Proof.
  intros Hd Hk. rewrite (callback_decoded _ _ _ _ _ Hd).
  unfold try_except, process_task_of, process_task. cbv beta iota.
  erewrite bind_raise
    by (erewrite bind_raise;
        [reflexivity | unfold tasks_getitem; rewrite Hk; reflexivity]).
  erewrite bind_ok by (apply mark_failed_absent; exact Hk).
  reflexivity.
Qed.

(** ** How the operations change the state *)

Lemma same_task_refl t : same_task t t.
Proof. repeat split. Qed.

Lemma heap_evolves_refl w : heap_evolves w w.
Proof. intros l t Hl. exists t. split; [exact Hl|]. split; [apply same_task_refl | now left]. Qed.

Lemma heap_evolves_trans a b c :
  heap_evolves a b -> heap_evolves b c -> heap_evolves a c.
Proof.
  intros Hab Hbc l t Hl.
  destruct (Hab l t Hl) as (t1 & Hl1 & (E1 & E2 & E3 & E4) & Hs1).
  destruct (Hbc l t1 Hl1) as (t2 & Hl2 & (F1 & F2 & F3 & F4) & Hs2).
  exists t2. split; [exact Hl2|]. split.
  - repeat split; congruence.
  - destruct Hs2 as [Hs2|Hs2]; [|now right].
    rewrite Hs2. exact Hs1.
Qed.

Lemma heap_evolves_same_heap w w' : heap w' = heap w -> heap_evolves w w'.
Proof.
  intros Hh l t Hl. exists t. rewrite Hh.
  split; [exact Hl|]. split; [apply same_task_refl | now left].
Qed.

Lemma status_only_refl w : status_only w w.
Proof. repeat split. apply heap_evolves_refl. Qed.

Lemma status_only_trans a b c :
  status_only a b -> status_only b c -> status_only a c.
Proof.
  intros (A1 & A2 & A3 & A4) (B1 & B2 & B3 & B4).
  repeat split; try congruence. now apply heap_evolves_trans with b.
Qed.

Lemma same_but_broker_status_only w w' :
  same_but_broker w w' -> status_only w w'.
Proof.
  intros ((Hh & Ht & Hd) & _). repeat split; try congruence.
  intros l t Hl. exists t. rewrite Hh.
  split; [exact Hl|]. split; [apply same_task_refl | now left].
Qed.

Lemma quiet_refl w : quiet w w.
Proof. reflexivity. Qed.

Lemma quiet_trans a b c : quiet a b -> quiet b c -> quiet a c.
Proof. unfold quiet. congruence. Qed.

(** Status writes keep a store well formed. *)
Lemma status_only_store_ok w w' :
  status_only w w' -> store_ok w -> store_ok w'.
Proof.
  intros (Ht & Hd & Hlen & Hev) (Hr & Hk & Hi). repeat split.
  - intros k l Hl. rewrite Ht in Hl. rewrite Hlen. now apply Hr with k.
  - intros l t' d Hl Hin. rewrite Ht.
    assert (Hlt : l < length (heap w)).
    { rewrite <- Hlen. now apply lookup_lt_Some with t'. }
    apply lookup_lt_is_Some in Hlt as [t Hlw].
    destruct (Hev l t Hlw) as (t2 & Hl2 & (_ & _ & Hdeps & _) & _).
    rewrite Hl in Hl2. injection Hl2 as <-.
    apply Hk with l t; [exact Hlw | now rewrite <- Hdeps].
  - intros k ds d Hl Hin. rewrite Ht. rewrite Hd in Hl.
    now apply Hi with k ds.
Qed.

Lemma set_status_status_only l s :
  s <> PENDING -> keeps status_only (set_status l s).
Proof.
  intros Hs w. unfold set_status.
  destruct (heap w !! l) as [t|] eqn:Hl; [|apply status_only_refl].
  simpl. repeat split.
  - apply length_insert.
  - intros l' t' Hl'. simpl. destruct (decide (l = l')) as [<-|Hne].
    + exists (with_status s t). rewrite list_lookup_insert_eq
        by now apply lookup_lt_Some with t.
      assert (t' = t) as -> by congruence.
      split; [reflexivity|]. split; [repeat split | now right].
    + exists t'. rewrite list_lookup_insert_ne by exact Hne.
      split; [exact Hl'|]. split; [apply same_task_refl | now left].
Qed.

Lemma set_status_quiet l s : keeps quiet (set_status l s).
Proof.
  intros w. unfold set_status. now destruct (heap w !! l).
Qed.

Lemma queue_task_status_only k : keeps status_only (queue_task k).
Proof. intros w. apply same_but_broker_status_only, queue_task_frame. Qed.

Lemma all_completed_status_only deps : keeps status_only (all_completed deps).
Proof. intros w. rewrite all_completed_state. apply status_only_refl. Qed.

(** Steps common to the frame proofs of the worker code. *)
Ltac keeps_step R_refl R_trans :=
  first
    [ apply (keeps_bind _ R_trans); [|intros ?]
    | apply (keeps_try _ R_trans)
    | apply (keeps_for_each _ R_refl R_trans); intros ?
    | apply (keeps_ret _ R_refl)
    | apply (keeps_raise _ R_refl)
    | apply keeps_if ].

Ltac keeps_pure R_refl :=
  let w := fresh "w" in
  intros w;
  first [ unfold tasks_getitem; destruct (tasks w !! _); apply R_refl
        | unfold load; destruct (heap w !! _); apply R_refl
        | unfold tasks_contains, dependents_get; apply R_refl ].

Lemma basic_ack_status_only tag : keeps status_only (basic_ack tag).
Proof. intros w. repeat split. now apply heap_evolves_same_heap. Qed.

Lemma json_loads_keeps R (R_refl : forall w, R w w) body :
  keeps R (json_loads body).
Proof. destruct body; intros w; apply R_refl. Qed.

Lemma json_getitem_keeps R (R_refl : forall w, R w w) data key :
  keeps R (json_getitem data key).
Proof.
  destruct data as [| | | | |fields]; try (intros w; apply R_refl).
  simpl. destruct (assoc_get key fields); intros w; apply R_refl.
Qed.

Lemma time_sleep_keeps R (R_refl : forall w, R w w) ok :
  keeps R (time_sleep ok).
Proof. destruct ok; intros w; apply R_refl. Qed.

Lemma reevaluate_status_only k : keeps status_only (reevaluate k).
Proof.
  unfold reevaluate.
  repeat first
    [ apply queue_task_status_only
    | apply all_completed_status_only
    | keeps_step status_only_refl status_only_trans
    | keeps_pure status_only_refl ].
Qed.

Lemma mark_failed_status_only j : keeps status_only (mark_failed j).
Proof.
  destruct j; simpl;
  repeat first
    [ apply set_status_status_only; discriminate
    | keeps_step status_only_refl status_only_trans
    | keeps_pure status_only_refl ].
Qed.

Lemma mark_failed_quiet j : keeps quiet (mark_failed j).
Proof.
  destruct j; simpl;
  repeat first
    [ apply set_status_quiet
    | keeps_step quiet_refl quiet_trans
    | keeps_pure quiet_refl ].
Qed.

Lemma on_error_status_only tag body : keeps status_only (on_error tag body).
Proof.
  unfold on_error.
  repeat first
    [ apply mark_failed_status_only
    | apply basic_ack_status_only
    | apply json_loads_keeps, status_only_refl
    | apply json_getitem_keeps, status_only_refl
    | keeps_step status_only_refl status_only_trans ].
Qed.

Lemma on_error_quiet tag body : keeps quiet (on_error tag body).
Proof.
  unfold on_error.
  repeat first
    [ apply mark_failed_quiet
    | apply json_loads_keeps, quiet_refl
    | apply json_getitem_keeps, quiet_refl
    | keeps_step quiet_refl quiet_trans
    | (intros w; reflexivity) ].
Qed.

Lemma process_task_rest_status_only k l :
  keeps status_only (process_task_rest k l).
Proof.
  unfold process_task_rest.
  repeat first
    [ apply set_status_status_only; discriminate
    | apply reevaluate_status_only
    | keeps_step status_only_refl status_only_trans
    | keeps_pure status_only_refl ].
Qed.

Lemma callback_enter_status_only tag body :
  keeps status_only (callback_enter tag body).
Proof.
  unfold callback_enter.
  repeat first
    [ apply on_error_status_only
    | apply json_loads_keeps, status_only_refl
    | apply json_getitem_keeps, status_only_refl
    | match goal with |- keeps _ (match ?j with _ => _ end) => destruct j end
    | apply set_status_status_only; discriminate
    | keeps_step status_only_refl status_only_trans
    | keeps_pure status_only_refl ].
Qed.

Lemma callback_enter_quiet tag body : keeps quiet (callback_enter tag body).
Proof.
  unfold callback_enter.
  repeat first
    [ apply on_error_quiet
    | apply json_loads_keeps, quiet_refl
    | apply json_getitem_keeps, quiet_refl
    | match goal with |- keeps _ (match ?j with _ => _ end) => destruct j end
    | apply set_status_quiet
    | keeps_step quiet_refl quiet_trans
    | keeps_pure quiet_refl ].
Qed.

Lemma callback_resume_status_only work_ok tag body k l :
  keeps status_only (callback_resume work_ok tag body k l).
Proof.
  unfold callback_resume.
  repeat first
    [ apply on_error_status_only
    | apply process_task_rest_status_only
    | apply basic_ack_status_only
    | apply time_sleep_keeps, status_only_refl
    | keeps_step status_only_refl status_only_trans ].
Qed.

(** ** Re-evaluation of the dependents *)

Lemma status_of_same_store w w' d :
  same_store w w' -> status_of w' d = status_of w d.
Proof. intros H. unfold status_of. now rewrite (task_of_same_store _ _ _ H). Qed.

Lemma ready_b_same_store w w' k :
  same_store w w' -> ready_b w' k = ready_b w k.
Proof.
  intros H. unfold ready_b. rewrite (task_of_same_store _ _ _ H).
  destruct (task_of w k) as [t|]; [|reflexivity].
  induction (t_dependencies t) as [|d ds IH]; simpl; [reflexivity|].
  now rewrite (status_of_same_store _ _ _ H), IH.
Qed.

Lemma messages_of_ready_same_store w w' ds :
  same_store w w' -> messages_of_ready w' ds = messages_of_ready w ds.
Proof.
  intros H. unfold messages_of_ready.
  induction ds as [|k ds IH]; simpl; [reflexivity|].
  now rewrite (task_of_same_store _ _ _ H), (ready_b_same_store _ _ _ H), IH.
Qed.

Lemma ready_message_same_store w w' m :
  same_store w w' -> ready_message w m -> ready_message w' m.
Proof.
  intros H (k & t & Hm & Ht & Hd). exists k, t.
  rewrite (task_of_same_store _ _ _ H). repeat split; auto.
  intros d Hin. rewrite (status_of_same_store _ _ _ H). now apply Hd.
Qed.

Lemma same_store_sym w w' : same_store w w' -> same_store w' w.
Proof. intros (A & B & C). now repeat split. Qed.

Lemma ready_b_spec w k t :
  task_of w k = Some t ->
  ready_b w k = true <-> all_deps_completed w (t_dependencies t).
Proof.
  intros Ht. unfold ready_b, all_deps_completed. rewrite Ht.
  induction (t_dependencies t) as [|d ds IH]; simpl.
  - split; [constructor | reflexivity].
  - rewrite Forall_cons, andb_true_iff, bool_decide_eq_true, IH. tauto.
Qed.

Lemma ready_message_intro w k t :
  task_of w k = Some t -> all_deps_completed w (t_dependencies t) ->
  ready_message w (message_for k t).
Proof.
  intros Ht Hr. exists k, t. repeat split; auto.
  intros d Hin. unfold all_deps_completed in Hr.
  rewrite Forall_forall in Hr. now apply Hr.
Qed.

(** In a well-formed store every key stands for an object whose
    dependencies are tasks of the store. *)
Lemma store_ok_task w k :
  store_ok w -> is_Some (tasks w !! k) ->
  exists l t, tasks w !! k = Some l /\ heap w !! l = Some t
    /\ task_of w k = Some t
    /\ Forall (fun d => is_Some (task_of w d)) (t_dependencies t).
Proof.
  intros (Hr & Hk & Hi) [l Hl].
  destruct (lookup_lt_is_Some_2 (heap w) l (Hr k l Hl)) as [t Ht].
  exists l, t. split; [exact Hl|]. split; [exact Ht|]. split.
  - apply task_of_Some. eauto.
  - apply Forall_forall. intros d Hin.
    destruct (Hk l t d Ht Hin) as [l' Hl'].
    destruct (lookup_lt_is_Some_2 (heap w) l' (Hr d l' Hl')) as [t' Ht'].
    exists t'. apply task_of_Some. eauto.
Qed.

(** One iteration of the loop of [process_task]: it returns, it touches
    only the broker, and what it publishes is the message of a ready task;
    with the broker reachable it publishes exactly when the entry is
    ready. *)
Lemma reevaluate_spec w k :
  store_ok w -> is_Some (tasks w !! k) ->
  exists w' ms,
    reevaluate k w = (Ok tt, w') /\ same_but_broker w w'
    /\ published w' = published w ++ ms
    /\ Forall (ready_message w) ms
    /\ (net w = [] -> ms = messages_of_ready w [k] /\ net w' = []).
Proof.
  intros Hok Hin.
  destruct (store_ok_task w k Hok Hin) as (l & t & Hl & Ht & Htask & Hdeps).
  destruct (readiness_checks_agree _ _ Hdeps) as (b & Hall & _ & Hb).
  unfold reevaluate.
  erewrite bind_ok by (unfold tasks_getitem; rewrite Hl; reflexivity).
  erewrite bind_ok by (unfold load; rewrite Ht; reflexivity).
  erewrite bind_ok by exact Hall.
  assert (Hmsgs : messages_of_ready w [k]
                  = if b then [message_for k t] else []).
  { unfold messages_of_ready. simpl. rewrite Htask, app_nil_r.
    destruct b.
    - now rewrite (proj2 (ready_b_spec w k t Htask)) by now apply Hb.
    - destruct (ready_b w k) eqn:E; [|reflexivity].
      apply (ready_b_spec w k t Htask), Hb in E. discriminate. }
  destruct b.
  - assert (Hr : all_deps_completed w (t_dependencies t)) by now apply Hb.
    pose proof (queue_task_frame k w) as Hf.
    unfold bind. rewrite (queue_task_ready _ _ _ Htask Hr) in *.
    destruct (try_publish_total k t w) as (b' & w' & Hq & Hp & _).
    rewrite Hq in *. simpl in Hf.
    destruct (net w) as [|x n] eqn:Hn.
    + rewrite (try_publish_up k t w Hn) in Hq. injection Hq as <- <-.
      exists (with_published [message_for k t] w), [message_for k t].
      repeat split; auto.
      constructor; [now apply ready_message_intro | constructor].
    + destruct Hp as [Hp|Hp].
      * exists w', []. rewrite app_nil_r.
        repeat split; try apply Hf; auto; discriminate.
      * exists w', [message_for k t].
        repeat split; try apply Hf; auto; try discriminate.
        constructor; [now apply ready_message_intro | constructor].
  - exists w, []. rewrite app_nil_r. repeat split; auto.
Qed.

Lemma for_each_reevaluate_spec ds : forall w,
  store_ok w -> Forall (fun k => is_Some (tasks w !! k)) ds ->
  exists w' ms,
    for_each ds reevaluate w = (Ok tt, w') /\ same_but_broker w w'
    /\ published w' = published w ++ ms
    /\ Forall (ready_message w) ms
    /\ (net w = [] -> ms = messages_of_ready w ds /\ net w' = []).
Proof.
  induction ds as [|k ds IH]; intros w Hok Hks.
  - exists w, []. rewrite app_nil_r. repeat split; auto.
  - apply Forall_cons in Hks as [Hk Hks].
    destruct (reevaluate_spec w k Hok Hk)
      as (w1 & ms1 & Hrun1 & Hsame1 & Hpub1 & Hready1 & Hnet1).
    assert (Hok1 : store_ok w1).
    { eapply status_only_store_ok; [|exact Hok].
      now apply same_but_broker_status_only. }
    assert (Hks1 : Forall (fun k => is_Some (tasks w1 !! k)) ds).
    { destruct Hsame1 as ((_ & -> & _) & _). exact Hks. }
    destruct (IH w1 Hok1 Hks1)
      as (w2 & ms2 & Hrun2 & Hsame2 & Hpub2 & Hready2 & Hnet2).
    exists w2, (ms1 ++ ms2). simpl.
    erewrite bind_ok by exact Hrun1. split; [exact Hrun2|].
    split; [now apply same_but_broker_trans with w1|].
    split; [now rewrite Hpub2, Hpub1, app_assoc|].
    split.
    + apply Forall_app. split; [exact Hready1|].
      eapply Forall_impl; [exact Hready2|]. intros m.
      apply ready_message_same_store, same_store_sym, Hsame1.
    + intros Hn. destruct (Hnet1 Hn) as [-> Hn1].
      destruct (Hnet2 Hn1) as [-> Hn2]. split; [|exact Hn2].
      rewrite (messages_of_ready_same_store w w1) by apply Hsame1.
      unfold messages_of_ready. simpl. now rewrite app_nil_r.
Qed.

Lemma with_object_status_status_only l s w :
  s <> PENDING -> status_only w (with_object_status l s w).
Proof.
  intros Hs. destruct (heap w !! l) as [t|] eqn:Hl.
  - pose proof (set_status_status_only l s Hs w) as H.
    now rewrite (set_status_run _ _ _ _ Hl) in H.
  - unfold with_object_status. repeat split; simpl.
    + apply length_alter.
    + intros l' t' Hl'. exists t'. simpl.
      rewrite list_lookup_alter_ne by congruence.
      split; [exact Hl'|]. split; [apply same_task_refl | now left].
Qed.

(** The lines of [process_task] after the sleep, in a well-formed store:
    the task becomes COMPLETED and every message published is the message
    of a task that is ready at that moment; with the broker reachable these
    are the messages of the ready entries of the dependents list, one for
    each entry. *)
Lemma process_task_rest_spec k l t w :
  store_ok w -> heap w !! l = Some t ->
  exists w' ms,
    process_task_rest k l w = (Ok tt, w')
    /\ same_but_broker (with_object_status l COMPLETED w) w'
    /\ published w' = published w ++ ms
    /\ Forall (ready_message (with_object_status l COMPLETED w)) ms
    /\ (net w = [] ->
        ms = messages_of_ready (with_object_status l COMPLETED w)
                               (default [] (dependents w !! k))).
Proof.
  intros Hok Hl. set (w1 := with_object_status l COMPLETED w).
  assert (Hok1 : store_ok w1).
  { apply (status_only_store_ok w); [|exact Hok].
    now apply with_object_status_status_only. }
  assert (Hks : Forall (fun d => is_Some (tasks w1 !! d))
                       (default [] (dependents w !! k))).
  { destruct Hok as (_ & _ & Hi). apply Forall_forall. intros d Hin.
    destruct (dependents w !! k) as [ds|] eqn:Hd; simpl in Hin.
    - now apply (Hi k ds d).
    - inversion Hin. }
  destruct (for_each_reevaluate_spec _ w1 Hok1 Hks)
    as (w' & ms & Hrun & Hsame & Hpub & Hready & Hnet).
  exists w', ms. unfold process_task_rest.
  erewrite bind_ok by (apply set_status_run with t; exact Hl).
  erewrite bind_ok by reflexivity.
  split; [exact Hrun|]. split; [exact Hsame|]. split; [exact Hpub|].
  split; [exact Hready|]. intros Hn. now apply Hnet.
Qed.

(** The second half of the callback, in a well-formed store and for a
    reference that points to an object. *)
Lemma callback_resume_spec work_ok tag body k l w :
  store_ok w -> l < length (heap w) ->
  exists r w' ms,
    callback_resume work_ok tag body k l w = (r, w')
    /\ published w' = published w ++ ms
    /\ Forall (ready_message w') ms.
Proof.
  intros Hok Hlt. apply lookup_lt_is_Some in Hlt as [t Hl].
  destruct work_ok.
  - destruct (process_task_rest_spec k l t w Hok Hl)
      as (w1 & ms & Hrun & (Hsame & _) & Hpub & Hready & _).
    exists (Ok tt), (with_ack tag w1), ms.
    unfold callback_resume, try_except.
    erewrite bind_ok by reflexivity.
    erewrite bind_ok by exact Hrun.
    split; [reflexivity|]. split; [exact Hpub|].
    eapply Forall_impl; [exact Hready|]. intros m.
    apply ready_message_same_store.
    destruct Hsame as (A & B & C). now repeat split.
  - pose proof (on_error_quiet tag body w) as Hq.
    destruct (on_error tag body w) as [r w'] eqn:Herr.
    exists r, w', []. unfold callback_resume, try_except.
    erewrite bind_raise by reflexivity.
    split; [exact Herr|]. rewrite app_nil_r. split; [exact Hq | constructor].
Qed.

(** ** Well-formed stores are kept *)

Lemma created_store_ok request k w :
  store_ok w ->
  Forall (fun d => is_Some (tasks w !! d)) (r_dependencies request) ->
  store_ok (created request k w).
Proof.
  intros (Hr & Hk & Hi) Hdeps. repeat split.
  - intros k' l Hl. simpl in *. rewrite length_app. simpl.
    destruct (decide (k = k')) as [<-|Hne].
    + rewrite lookup_insert_eq in Hl. injection Hl as <-. lia.
    + rewrite lookup_insert_ne in Hl by exact Hne.
      specialize (Hr k' l Hl). lia.
  - intros l t d Hl Hin. simpl in *.
    assert (Hd : is_Some (tasks w !! d)).
    { apply lookup_app_Some in Hl as [Hl|[_ Hl]].
      - now apply (Hk l t d).
      - apply list_lookup_singleton_Some in Hl as [_ <-].
        rewrite Forall_forall in Hdeps. now apply Hdeps. }
    destruct (decide (k = d)) as [<-|Hne].
    + rewrite lookup_insert_eq. eauto.
    + now rewrite lookup_insert_ne.
  - intros k' ds d Hl Hin. simpl in *.
    assert (Hd : d = k \/ is_Some (tasks w !! d)).
    { assert (Hmem : d ∈ default [] (register (r_dependencies request) k
                                          (dependents w) !! k'))
        by now rewrite Hl.
      rewrite register_lookup in Hmem.
      apply elem_of_app in Hmem as [Hmem|Hmem].
      - right. destruct (dependents w !! k') as [ds'|] eqn:Hd'; simpl in Hmem.
        + now apply (Hi k' ds' d).
        + inversion Hmem.
      - left. now apply elem_of_replicate in Hmem as [-> _]. }
    destruct Hd as [->|Hd].
    + rewrite lookup_insert_eq. eauto.
    + destruct (decide (k = d)) as [<-|Hne].
      * rewrite lookup_insert_eq. eauto.
      * now rewrite lookup_insert_ne.
Qed.

Lemma known_or_unknown w deps :
  Forall (fun d => is_Some (tasks w !! d)) deps
  \/ Exists (fun d => tasks w !! d = None) deps.
Proof.
  induction deps as [|d deps [IH|IH]].
  - left. constructor.
  - destruct (tasks w !! d) as [l|] eqn:Hd.
    + left. constructor; eauto.
    + right. now apply Exists_cons_hd.
  - right. now apply Exists_cons_tl.
Qed.

(** What a creation does to the state, whether it succeeds or not. *)
Lemma create_task_spec request uuid w :
  store_ok w ->
  exists r w' ms,
    create_task request uuid w = (r, w')
    /\ store_ok w' /\ heap_evolves w w'
    /\ published w' = published w ++ ms
    /\ Forall (ready_message w') ms.
Proof.
  intros Hok. set (k := substring 0 8 uuid).
  destruct (known_or_unknown w (r_dependencies request)) as [Hp|Hex].
  - pose proof (create_task_run request uuid w Hp) as Hrun. fold k in Hrun.
    pose proof (queue_task_frame k (created request k w)) as Hf.
    pose proof (queue_task_published k (created request k w)) as Hpub.
    destruct (queue_task k (created request k w)) as [r w'] eqn:Hq.
    simpl in Hf, Hpub. destruct Hf as (Hs & Hack).
    assert (Hok' : store_ok w').
    { apply (status_only_store_ok (created request k w)).
      - apply same_but_broker_status_only. now split.
      - now apply created_store_ok. }
    assert (Hev : heap_evolves w w').
    { intros l t Hl. exists t. destruct Hs as (-> & _). simpl.
      split; [now apply lookup_app_l_Some|].
      split; [apply same_task_refl | now left]. }
    assert (Hms : exists ms, published w' = published w ++ ms
                             /\ Forall (ready_message w') ms).
    { destruct Hpub as [Hpub|(t & Ht & Hr & Hpub)].
      - exists []. rewrite app_nil_r. split; [exact Hpub | constructor].
      - exists [message_for k t]. split; [exact Hpub|].
        constructor; [|constructor].
        apply (ready_message_same_store (created request k w)); [exact Hs|].
        now apply ready_message_intro. }
    destruct Hms as (ms & Hms1 & Hms2).
    destruct r as [b|e]; do 3 eexists;
      (split; [exact Hrun|]); (split; [exact Hok'|]);
      (split; [exact Hev|]); (split; [exact Hms1 | exact Hms2]).
  - destruct (check_dependencies_fail _ _ Hex) as (d & _ & _ & Hrun).
    exists (Raise (HTTPException 400
                     ("Dependency " ++ d ++ " not found")%string)), w, [].
    split.
    + unfold create_task. now erewrite bind_raise by exact Hrun.
    + rewrite app_nil_r. split; [exact Hok|].
      split; [apply heap_evolves_refl|]. split; [reflexivity | constructor].
Qed.

Lemma create_task_heap_evolves request uuid :
  keeps heap_evolves (create_task request uuid).
Proof.
  intros w.
  destruct (known_or_unknown w (r_dependencies request)) as [Hp|Hex].
  - rewrite (create_task_run request uuid w Hp).
    pose proof (queue_task_frame (substring 0 8 uuid)
                  (created request (substring 0 8 uuid) w)) as Hf.
    destruct (queue_task _ _) as [[b|e] w']; simpl in *;
      destruct Hf as ((Hh & _) & _);
      intros l t Hl; exists t; rewrite Hh; simpl;
      (split; [now apply lookup_app_l_Some|]);
      (split; [apply same_task_refl | now left]).
  - destruct (check_dependencies_fail _ _ Hex) as (d & _ & _ & Hrun).
    unfold create_task. erewrite bind_raise by exact Hrun.
    apply heap_evolves_refl.
Qed.

Lemma heap_evolves_length w w' l :
  heap_evolves w w' -> l < length (heap w) -> l < length (heap w').
Proof.
  intros Hev Hlt. apply lookup_lt_is_Some in Hlt as [t Hl].
  destruct (Hev l t Hl) as (t' & Hl' & _). now apply lookup_lt_Some with t'.
Qed.

Lemma on_error_not_sleeping tag body w k l w' :
  (on_error tag body >> ret Returned) w <> (Ok (Sleeping k l), w').
Proof.
  unfold bind. destruct (on_error tag body w) as [[[]|e] w1]; discriminate.
Qed.

(** A callback that reaches its sleep holds the object its key stands
    for. *)
Lemma callback_enter_sleeping tag body w k l w' :
  callback_enter tag body w = (Ok (Sleeping k l), w') ->
  tasks w !! k = Some l.
Proof.
  unfold callback_enter, try_except.
  destruct body as [j|raw]; cbv [bind json_loads ret raise];
    [|intros H; now apply on_error_not_sleeping in H].
  destruct j as [| | | | |fields]; cbv [json_getitem raise];
    try (intros H; now apply on_error_not_sleeping in H).
  destruct (assoc_get "task_id" fields) as [[| | |k'| |]|];
    cbv [ret raise];
    try (intros H; now apply on_error_not_sleeping in H).
  unfold tasks_getitem, set_status.
  destruct (tasks w !! k') as [l'|] eqn:Hk;
    [|intros H; now apply on_error_not_sleeping in H].
  destruct (heap w !! l') as [t|];
    [|intros H; now apply on_error_not_sleeping in H].
  intros [= <- <- _]. exact Hk.
Qed.

Lemma take_frame_Forall (P : Frame -> Prop) tag fs f rest :
  take_frame tag fs = Some (f, rest) -> Forall P fs -> P f /\ Forall P rest.
Proof.
  revert rest. induction fs as [|g fs IH]; simpl; intros rest; [discriminate|].
  intros H Hall. apply Forall_cons in Hall as [Hg Hfs].
  destruct (decide (f_tag g = tag)).
  - injection H as <- <-. now split.
  - destruct (take_frame tag fs) as [[f' rest']|]; [|discriminate].
    injection H as <- <-. destruct (IH rest' eq_refl Hfs) as [Hf Hrest].
    split; [exact Hf | now constructor].
Qed.

(** No object disappears in a step of the system, and a status is either
    kept or overwritten with a status other than PENDING. *)
Lemma sys_step_heap_evolves e s s' :
  sys_step e s = Some s' -> heap_evolves (world s) (world s').
Proof.
  destruct e as [request uuid script|tag|tag work_ok script]; simpl.
  - pose proof (create_task_heap_evolves request uuid
                  (with_net script (world s))) as Hev.
    destruct (create_task request uuid (with_net script (world s)))
      as [r w'].
    intros [= <-]. exact Hev.
  - destruct (deliverable tag s) as [[q body]|]; [|discriminate].
    pose proof (callback_enter_status_only tag body (world s))
      as (_ & _ & _ & Hev).
    destruct (callback_enter tag body (world s)) as [[[k l|]|e] w'];
      intros [= <-]; exact Hev.
  - destruct (take_frame tag (running s)) as [[f rest]|]; [|discriminate].
    pose proof (callback_resume_status_only work_ok tag (f_body f)
                  (f_task_id f) (f_task f) (with_net script (world s)))
      as (_ & _ & _ & Hev).
    destruct (callback_resume _ _ _ _ _ _) as [r w'].
    intros [= <-]. exact Hev.
Qed.

(** A step of the system keeps the system well formed, and in this model,
    where the test and the publication are one step, whatever it publishes
    is the message of a task that is ready when the step ends. *)
Lemma sys_step_spec e s s' :
  system_ok s -> sys_step e s = Some s' ->
  system_ok s'
  /\ exists ms, newly_published s s' ms
                /\ Forall (ready_message (world s')) ms.
Proof.
  intros [Hok Hfr] Hstep.
  pose proof (sys_step_heap_evolves e s s' Hstep) as Hev.
  assert (Hfr' : forall fs, Forall (fun f => f_task f < length (heap (world s))) fs
                            -> Forall (fun f => f_task f < length (heap (world s'))) fs).
  { intros fs Hfs. eapply Forall_impl; [exact Hfs|]. intros f.
    now apply heap_evolves_length. }
  unfold newly_published.
  destruct e as [request uuid script|tag|tag work_ok script]; simpl in Hstep.
  - assert (Hok0 : store_ok (with_net script (world s))) by exact Hok.
    destruct (create_task_spec request uuid _ Hok0)
      as (r & w' & ms & Hrun & Hok' & _ & Hpub & Hready).
    rewrite Hrun in Hstep. injection Hstep as <-.
    split; [split; [exact Hok' | now apply Hfr']|].
    exists ms. now split.
  - destruct (deliverable tag s) as [[q body]|]; [|discriminate].
    pose proof (callback_enter_status_only tag body (world s)) as Hso.
    pose proof (callback_enter_quiet tag body (world s)) as Hq.
    pose proof (callback_enter_sleeping tag body (world s)) as Hsl.
    destruct (callback_enter tag body (world s)) as [r w'].
    simpl in Hso, Hq.
    assert (Hok' : store_ok w') by now apply (status_only_store_ok (world s)).
    assert (Hpub : exists ms, published w' = published (world s) ++ ms
                              /\ Forall (ready_message w') ms).
    { exists []. rewrite app_nil_r. split; [exact Hq | constructor]. }
    destruct r as [[k l|]|e]; injection Hstep as <-;
      (split; [|exact Hpub]); (split; [exact Hok'|]);
      try (now apply Hfr').
    unfold frames_ok in *. simpl in *. constructor; [|now apply Hfr'].
    simpl. destruct Hso as (_ & _ & -> & _).
    destruct Hok as (Hr & _). apply (Hr k l). now apply (Hsl k l w').
  - destruct (take_frame tag (running s)) as [[f rest]|] eqn:Htake;
      [|discriminate].
    destruct (take_frame_Forall _ _ _ _ _ Htake Hfr) as [Hf Hrest].
    assert (Hok0 : store_ok (with_net script (world s))) by exact Hok.
    destruct (callback_resume_spec work_ok tag (f_body f) (f_task_id f)
                (f_task f) _ Hok0 Hf)
      as (r & w' & ms & Hrun & Hpub & Hready).
    pose proof (callback_resume_status_only work_ok tag (f_body f)
                  (f_task_id f) (f_task f) (with_net script (world s)))
      as Hso.
    rewrite Hrun in Hstep, Hso. injection Hstep as <-. simpl in *.
    split; [split|].
    + now apply (status_only_store_ok (with_net script (world s))).
    + now apply Hfr'.
    + exists ms. now split.
Qed.

Lemma initial_ok : system_ok initial.
Proof.
  repeat split.
  - intros k l Hl. simpl in Hl. rewrite lookup_empty in Hl. discriminate.
  - intros l t d Hl. simpl in Hl. discriminate.
  - intros k ds d Hl. simpl in Hl. rewrite lookup_empty in Hl. discriminate.
  - constructor.
Qed.

Lemma run_ok es : forall s s',
  system_ok s -> run es s = Some s' -> system_ok s'.
Proof.
  induction es as [|e es IH]; simpl; intros s s' Hok Hrun.
  - now injection Hrun as <-.
  - destruct (sys_step e s) as [s1|] eqn:Hstep; [|discriminate].
    apply (IH s1 s'); [|exact Hrun].
    now apply (sys_step_spec e s s1).
Qed.

Lemma reachable_ok s : reachable s -> system_ok s.
Proof. intros [es Hrun]. apply (run_ok es initial s initial_ok Hrun). Qed.

(** ** The two halves make the callback *)

Lemma callback_split work_ok tag body w :
  callback work_ok tag body w
  = match callback_enter tag body w with
    | (Ok (Sleeping k l), w1) => callback_resume work_ok tag body k l w1
    | (Ok Returned, w1) => (Ok tt, w1)
    | (Raise e, w1) => (Raise e, w1)
    end.
Proof.
  unfold callback, callback_enter, callback_resume.
  generalize (on_error tag body). intros h.
  assert (Hh : forall w0,
             match (h >> ret Returned) w0 with
             | (Ok (Sleeping k l), w1) =>
                 try_except
                   (time_sleep work_ok >>
                    process_task_rest k l >> basic_ack tag) h w1
             | (Ok Returned, w1) => (Ok tt, w1)
             | (Raise e, w1) => (Raise e, w1)
             end = h w0).
  { intros w0. unfold bind.
    destruct (h w0) as [[[]|e] w1]; reflexivity. }
  remember (h >> ret Returned) as hr eqn:Ehr. clear Ehr.
  unfold try_except.
  destruct body as [j|raw]; cbv [bind json_loads ret raise];
    [|symmetry; exact (Hh w)].
  destruct j as [| | | | |fields]; cbv [json_getitem raise];
    try (symmetry; exact (Hh w)).
  destruct (assoc_get "task_id" fields) as [[| | |k| |]|];
    cbv [ret raise process_task_of]; try (symmetry; exact (Hh w)).
  unfold process_task, tasks_getitem, bind.
  destruct (tasks w !! k) as [l|]; [|symmetry; exact (Hh w)].
  unfold set_status at 1 3.
  destruct (heap w !! l) as [t|]; [|symmetry; exact (Hh w)].
  unfold process_task_rest, bind.
  destruct (time_sleep work_ok _) as [[[]|e] w1]; [|reflexivity].
  destruct (set_status l COMPLETED w1) as [[[]|e] w2]; [|reflexivity].
  destruct (dependents_get k w2) as [[ds|e] w3]; [|reflexivity].
  destruct (for_each ds reevaluate w3) as [[[]|e] w4]; reflexivity.
Qed.

(** ** Dispatch and failure *)

(** C2 as stated fails: in the sample run a0000000 is executed twice; its
    first execution completes and publishes d0000000, its second one fails.
    The state reached has a0000000 FAILED and its dependent d0000000
    PENDING, and the delivery of the message of d0000000 puts d0000000
    IN_PROGRESS. *)
Lemma dependent_of_failed_task_starts :
  ~ (forall s e s' a b,
       reachable s -> sys_step e s = Some s' ->
       status_of (world s) b = Some FAILED ->
       depends_on (world s) a b ->
       status_of (world s) a = Some PENDING ->
       status_of (world s') a = Some PENDING).
Proof.
  intros H.
  specialize (H (state_after sample_run) (Deliver 3)
                (state_after (sample_run ++ [Deliver 3]))
                "d0000000" "a0000000").
  assert (Hs : status_of (world (state_after (sample_run ++ [Deliver 3])))
                         "d0000000" = Some PENDING).
  { apply H.
    - exists sample_run. vm_compute. reflexivity.
    - vm_compute. reflexivity.
    - vm_compute. reflexivity.
    - apply depends_direct
        with (mkTask "d0000000" PENDING "d" ["a0000000"] false).
      + vm_compute. reflexivity.
      + simpl. apply elem_of_cons. now left.
    - vm_compute. reflexivity. }
  vm_compute in Hs. discriminate.
Qed.

(** Between the readiness test of [queue_task] and its publication the
    program holds nothing: in this thread order both tests for d0000000
    pass while a0000000 is COMPLETED, a0000000 becomes FAILED while the
    worker waits for the broker, and the worker then publishes d0000000. *)
Lemma stale_test_publishes_after_failure :
  all_completed ["a0000000"] test_made = (Ok true, test_made)
  /\ any_not_completed ["a0000000"] test_made = (Ok false, test_made)
  /\ status_of failed_meanwhile "a0000000" = Some FAILED
  /\ fst (try_publish "d0000000"
            (mkTask "d0000000" PENDING "d" ["a0000000"] false)
            failed_meanwhile) = Ok true
  /\ published published_late
     = published failed_meanwhile
       ++ [message_for "d0000000"
             (mkTask "d0000000" PENDING "d" ["a0000000"] false)]
  /\ status_of published_late "a0000000" = Some FAILED
  /\ acked published_late = [0; 2; 1].
Proof. vm_compute. repeat split. Qed.

Lemma reevaluate_blocked w k t :
  task_of w k = Some t -> ~ all_deps_completed w (t_dependencies t) ->
  exists r, reevaluate k w = (r, w) /\ (r = Ok tt \/ exists e, r = Raise e).
Proof.
  intros Ht Hr. apply task_of_Some in Ht as (l & Hk & Hl).
  rewrite <- all_completed_true_iff in Hr.
  pose proof (all_completed_state (t_dependencies t) w) as Hs.
  unfold reevaluate.
  erewrite bind_ok by (unfold tasks_getitem; rewrite Hk; reflexivity).
  erewrite bind_ok by (unfold load; rewrite Hl; reflexivity).
  unfold bind.
  destruct (all_completed (t_dependencies t) w) as [[[]|e] w1];
    simpl in Hs; subst w1.
  - contradiction.
  - eexists; split; [reflexivity | now left].
  - eexists; split; [reflexivity | right; eauto].
Qed.

Lemma failed_dependency_not_ready w deps d :
  d ∈ deps -> status_of w d = Some FAILED -> ~ all_deps_completed w deps.
Proof.
  intros Hin Hd Hall. unfold all_deps_completed in Hall.
  rewrite Forall_forall in Hall. specialize (Hall d Hin). congruence.
Qed.

(** C2, amended: every path that dispatches tests the dependencies first.
    A call of [queue_task] on a task that has a direct dependency in status
    FAILED publishes nothing, changes nothing and does not answer True, and
    the iteration of the loop of [process_task] for such a task changes
    nothing either; when the dependencies are tasks of the store the
    answers are False and a normal return.  A creation that lists a FAILED
    dependency succeeds, leaves the new task PENDING and publishes nothing.
    The handler that marks a task FAILED publishes nothing.  Each statement
    is about one call; the program does not hold the result over time. *)
Theorem failed_dependency_blocks_dispatch :
  (forall w k t d,
     task_of w k = Some t -> d ∈ t_dependencies t ->
     status_of w d = Some FAILED ->
     (exists r, queue_task k w = (r, w) /\ r <> Ok true)
     /\ (exists r, reevaluate k w = (r, w)
                   /\ (r = Ok tt \/ exists e, r = Raise e))
     /\ (Forall (fun d' => is_Some (task_of w d')) (t_dependencies t) ->
         queue_task k w = (Ok false, w) /\ reevaluate k w = (Ok tt, w)))
  /\ (forall request uuid w d,
        tasks w !! substring 0 8 uuid = None ->
        Forall (fun d' => is_Some (task_of w d')) (r_dependencies request) ->
        d ∈ r_dependencies request -> status_of w d = Some FAILED ->
        exists w',
          create_task request uuid w = (Ok (substring 0 8 uuid), w')
          /\ status_of w' (substring 0 8 uuid) = Some PENDING
          /\ published w' = published w)
  /\ (forall tag body w, published (snd (on_error tag body w)) = published w).
Proof.
  split; [|split].
  - intros w k t d Ht Hin Hd.
    pose proof (failed_dependency_not_ready w _ d Hin Hd) as Hnr.
    split; [now apply queue_task_blocked with t|].
    split; [now apply reevaluate_blocked with t|].
    intros Hp. split; [now apply queue_task_blocked_false with t|].
    destruct (readiness_checks_agree _ _ Hp) as (b & Hall & _ & Hb).
    apply task_of_Some in Ht as (l & Hk & Hl). unfold reevaluate.
    erewrite bind_ok by (unfold tasks_getitem; rewrite Hk; reflexivity).
    erewrite bind_ok by (unfold load; rewrite Hl; reflexivity).
    erewrite bind_ok by exact Hall.
    destruct b; [|reflexivity]. exfalso. apply Hnr. now apply Hb.
  - intros request uuid w d Hfresh Hp Hin Hd.
    set (k := substring 0 8 uuid) in *.
    assert (Hkeys : Forall (fun d' => is_Some (tasks w !! d'))
                           (r_dependencies request)).
    { eapply Forall_impl; [exact Hp|]. intros d' [t Ht].
      apply task_of_Some in Ht as (l & Hl & _). eauto. }
    pose proof (create_task_run request uuid w Hkeys) as Hrun.
    fold k in Hrun.
    pose proof (created_task_of request k w) as Ht.
    assert (Hp' : Forall (fun d' => is_Some (task_of (created request k w) d'))
                         (t_dependencies (new_task request k))).
    { simpl. eapply Forall_impl; [exact Hp|]. intros d' [t Hd'].
      exists t. now apply created_keeps_tasks. }
    assert (Hd' : status_of (created request k w) d = Some FAILED).
    { unfold status_of in *.
      destruct (task_of w d) as [td|] eqn:Htd; [|discriminate].
      now rewrite (created_keeps_tasks request k w d td Hfresh Htd). }
    assert (Hnr : ~ all_deps_completed (created request k w)
                      (t_dependencies (new_task request k)))
      by now apply failed_dependency_not_ready with d.
    rewrite (queue_task_blocked_false _ k _ Ht Hp' Hnr) in Hrun.
    exists (created request k w). split; [exact Hrun|].
    split; [|reflexivity]. unfold status_of. now rewrite Ht.
  - intros tag body w. apply on_error_quiet.
Qed.

Lemma failed_dependency_blocks_dispatch_witness :
  ((exists r, queue_task "d0000000" (world (state_after sample_run))
              = (r, world (state_after sample_run))
              /\ r <> Ok true)
   /\ (exists r, reevaluate "d0000000" (world (state_after sample_run))
                 = (r, world (state_after sample_run))
                 /\ (r = Ok tt \/ exists e, r = Raise e))
   /\ (Forall (fun d' => is_Some
                           (task_of (world (state_after sample_run)) d'))
              (t_dependencies
                 (mkTask "d0000000" PENDING "d" ["a0000000"] false)) ->
       queue_task "d0000000" (world (state_after sample_run))
       = (Ok false, world (state_after sample_run))
       /\ reevaluate "d0000000" (world (state_after sample_run))
          = (Ok tt, world (state_after sample_run))))
  /\ (exists w',
        create_task (mkTaskRequest "e" ["a0000000"] false)
                    "e0000000-0000-4000-8000-000000000000"
                    (world (state_after sample_run))
        = (Ok (substring 0 8 "e0000000-0000-4000-8000-000000000000"), w')
        /\ status_of w' (substring 0 8 "e0000000-0000-4000-8000-000000000000")
           = Some PENDING
        /\ published w' = published (world (state_after sample_run)))
  /\ published (snd (on_error 2 (task_body "a0000000" "a")
                             (world (state_after sample_run))))
     = published (world (state_after sample_run)).
Proof.
  split; [|split].
  - apply (proj1 failed_dependency_blocks_dispatch
             (world (state_after sample_run)) "d0000000"
             (mkTask "d0000000" PENDING "d" ["a0000000"] false) "a0000000").
    + vm_compute. reflexivity.
    + apply elem_of_cons. now left.
    + vm_compute. reflexivity.
  - apply (proj1 (proj2 failed_dependency_blocks_dispatch)
             (mkTaskRequest "e" ["a0000000"] false)
             "e0000000-0000-4000-8000-000000000000"
             (world (state_after sample_run)) "a0000000").
    + vm_compute. reflexivity.
    + repeat constructor.
      exists (mkTask "a0000000" FAILED "a" ["b0000000"; "b0000000"] false).
      vm_compute. reflexivity.
    + apply elem_of_cons. now left.
    + vm_compute. reflexivity.
  - apply (proj2 (proj2 failed_dependency_blocks_dispatch)
             2 (task_body "a0000000" "a") (world (state_after sample_run))).
Defined.

(** ** Status transitions *)

(** C5 as stated fails: in the sample run a0000000 is COMPLETED after its
    first execution, and the delivery of its second message sets it to
    IN_PROGRESS again. *)
Lemma completed_task_runs_again :
  ~ (forall s e s' l t t',
       reachable s -> sys_step e s = Some s' ->
       heap (world s) !! l = Some t -> heap (world s') !! l = Some t' ->
       t_status t = COMPLETED \/ t_status t = FAILED ->
       t_status t' = t_status t).
Proof.
  intros H.
  specialize (H (state_after (firstn 7 sample_run)) (Deliver 2)
                (state_after (firstn 8 sample_run)) 1
                (mkTask "a0000000" COMPLETED "a" ["b0000000"; "b0000000"]
                        false)
                (mkTask "a0000000" IN_PROGRESS "a" ["b0000000"; "b0000000"]
                        false)).
  assert (Hs : IN_PROGRESS = COMPLETED).
  { apply H.
    - exists (firstn 7 sample_run). vm_compute. reflexivity.
    - vm_compute. reflexivity.
    - vm_compute. reflexivity.
    - vm_compute. reflexivity.
    - now left. }
  discriminate.
Qed.

(** C5, amended: in a step of the system no task object disappears or
    changes its identifier, message, dependencies or flag, and no status is
    set to PENDING: a task that has left PENDING never returns to it. *)
Theorem status_never_back_to_pending s e s' l t :
  sys_step e s = Some s' -> heap (world s) !! l = Some t ->
  exists t',
    heap (world s') !! l = Some t' /\ same_task t t'
    /\ (t_status t <> PENDING -> t_status t' <> PENDING).
Proof.
  intros Hstep Hl.
  destruct (sys_step_heap_evolves e s s' Hstep l t Hl)
    as (t' & Hl' & Hsame & Hs).
  exists t'. split; [exact Hl'|]. split; [exact Hsame|].
  intros Hne. destruct Hs as [Hs|Hs]; [now rewrite Hs | exact Hs].
Qed.

Lemma status_never_back_to_pending_witness :
  exists t',
    heap (world (state_after (firstn 8 sample_run))) !! 1 = Some t'
    /\ same_task (mkTask "a0000000" COMPLETED "a" ["b0000000"; "b0000000"]
                         false) t'
    /\ (t_status (mkTask "a0000000" COMPLETED "a" ["b0000000"; "b0000000"]
                         false) <> PENDING ->
        t_status t' <> PENDING).
Proof.
  apply (status_never_back_to_pending (state_after (firstn 7 sample_run))
           (Deliver 2)).
  - vm_compute. reflexivity.
  - vm_compute. reflexivity.
Defined.

(** ** Dependencies listed more than once *)

Lemma create_task_dependents request uuid w k w' :
  create_task request uuid w = (Ok k, w') ->
  dependents w' = register (r_dependencies request) k (dependents w).
Proof.
  intros Hrun.
  destruct (known_or_unknown w (r_dependencies request)) as [Hp|Hex].
  - rewrite (create_task_run request uuid w Hp) in Hrun.
    pose proof (queue_task_frame (substring 0 8 uuid)
                  (created request (substring 0 8 uuid) w)) as Hf.
    destruct (queue_task _ _) as [[b|e] w1]; [|discriminate].
    injection Hrun as <- <-. simpl in Hf. now destruct Hf as ((_ & _ & ->) & _).
  - destruct (check_dependencies_fail _ _ Hex) as (d & _ & _ & Hfail).
    unfold create_task in Hrun.
    erewrite bind_raise in Hrun by exact Hfail. discriminate.
Qed.

Lemma messages_of_ready_app w ds ds' :
  messages_of_ready w (ds ++ ds')
  = messages_of_ready w ds ++ messages_of_ready w ds'.
Proof. unfold messages_of_ready. apply flat_map_app. Qed.

Lemma messages_of_ready_replicate w k t n :
  task_of w k = Some t -> all_deps_completed w (t_dependencies t) ->
  messages_of_ready w (replicate n k) = replicate n (message_for k t).
Proof.
  intros Ht Hr. apply (ready_b_spec w k t Ht) in Hr.
  induction n as [|n IH]; [reflexivity|].
  change (replicate (S n) k) with ([k] ++ replicate n k).
  rewrite messages_of_ready_app, IH.
  unfold messages_of_ready. simpl. now rewrite Ht, Hr.
Qed.

(** C10: a successful creation appends the new identifier to the
    dependents list of a dependency once for every occurrence of that
    dependency in the request; when the dependency completes, the loop of
    [process_task] publishes one message for every ready entry of that
    list, so a ready dependent that occurs [n] times at the end of the list
    is published [n] times. *)
Theorem duplicate_dependency_counted_per_occurrence :
  (forall request uuid w k w' d,
     create_task request uuid w = (Ok k, w') ->
     default [] (dependents w' !! d)
     = default [] (dependents w !! d)
       ++ replicate (count_occ string_dec (r_dependencies request) d) k)
  /\ (forall k l t w,
        store_ok w -> heap w !! l = Some t -> net w = [] ->
        exists w',
          process_task_rest k l w = (Ok tt, w')
          /\ published w'
             = published w
               ++ messages_of_ready (with_object_status l COMPLETED w)
                                    (default [] (dependents w !! k)))
  /\ (forall w ds k t n,
        task_of w k = Some t -> all_deps_completed w (t_dependencies t) ->
        messages_of_ready w (ds ++ replicate n k)
        = messages_of_ready w ds ++ replicate n (message_for k t)).
Proof.
  split; [|split].
  - intros request uuid w k w' d Hrun.
    rewrite (create_task_dependents _ _ _ _ _ Hrun).
    apply register_lookup.
  - intros k l t w Hok Hl Hn.
    destruct (process_task_rest_spec k l t w Hok Hl)
      as (w' & ms & Hrun & _ & Hpub & _ & Hms).
    exists w'. split; [exact Hrun|]. now rewrite Hpub, (Hms Hn).
  - intros w ds k t n Ht Hr.
    now rewrite messages_of_ready_app, (messages_of_ready_replicate w k t n).
Qed.

Lemma duplicate_dependency_counted_per_occurrence_witness :
  default []
    (dependents
       (snd (create_task (mkTaskRequest "a" ["b0000000"; "b0000000"] false)
               "a0000000-0000-4000-8000-000000000000"
               (world (state_after (firstn 1 sample_run)))))
     !! "b0000000")
  = default []
      (dependents (world (state_after (firstn 1 sample_run))) !! "b0000000")
    ++ replicate
         (count_occ string_dec
            (r_dependencies
               (mkTaskRequest "a" ["b0000000"; "b0000000"] false))
            "b0000000")
         "a0000000"
  /\ (exists w',
        process_task_rest "b0000000" 0
          (world (state_after (firstn 4 sample_run)))
        = (Ok tt, w')
        /\ published w'
           = published (world (state_after (firstn 4 sample_run)))
             ++ messages_of_ready
                  (with_object_status 0 COMPLETED
                     (world (state_after (firstn 4 sample_run))))
                  (default []
                     (dependents (world (state_after (firstn 4 sample_run)))
                      !! "b0000000")))
  /\ messages_of_ready sample_done ([] ++ replicate 2 "a0000000")
     = messages_of_ready sample_done []
       ++ replicate 2
            (message_for "a0000000" (mkTask "a0000000" COMPLETED "m" [] false)).
Proof.
  split; [|split].
  - apply (proj1 duplicate_dependency_counted_per_occurrence
             (mkTaskRequest "a" ["b0000000"; "b0000000"] false)
             "a0000000-0000-4000-8000-000000000000"
             (world (state_after (firstn 1 sample_run))) "a0000000").
    vm_compute. reflexivity.
  - apply (proj1 (proj2 duplicate_dependency_counted_per_occurrence)
             "b0000000" 0 (mkTask "b0000000" IN_PROGRESS "b" [] false)
             (world (state_after (firstn 4 sample_run)))).
    + apply reachable_ok. exists (firstn 4 sample_run).
      vm_compute. reflexivity.
    + vm_compute. reflexivity.
    + vm_compute. reflexivity.
  - apply (proj2 (proj2 duplicate_dependency_counted_per_occurrence)
             sample_done [] "a0000000"
             (mkTask "a0000000" COMPLETED "m" [] false) 2).
    + vm_compute. reflexivity.
    + constructor.
Defined.

(** * Further properties of the code *)

(** ** Nothing is taken away *)

Lemma append_only_refl w : append_only w w.
Proof. repeat split; auto. Qed.

Lemma append_only_trans a b c :
  append_only a b -> append_only b c -> append_only a c.
Proof.
  intros (A1 & A2 & A3 & A4 & A5) (B1 & B2 & B3 & B4 & B5).
  repeat split.
  - intros k Hk. now apply B1, A1.
  - intros d. now transitivity (default [] (dependents b !! d)).
  - now transitivity (published b).
  - now transitivity (acked b).
  - lia.
Qed.

Lemma same_but_broker_append_only w w' :
  same_but_broker w w' -> published w `prefix_of` published w' ->
  append_only w w'.
Proof.
  intros ((Hh & Ht & Hd) & Ha) Hp. repeat split.
  - intros k. now rewrite Ht.
  - intros d. now rewrite Hd.
  - exact Hp.
  - now rewrite Ha.
  - now rewrite Hh.
Qed.

Lemma queue_task_append_only k : keeps append_only (queue_task k).
Proof.
  intros w. apply same_but_broker_append_only; [apply queue_task_frame|].
  destruct (queue_task_published k w) as [->|(t & _ & _ & ->)];
    [reflexivity | now apply prefix_app_r].
Qed.

Lemma set_status_append_only l s : keeps append_only (set_status l s).
Proof.
  intros w. unfold set_status.
  destruct (heap w !! l) as [t|]; [|apply append_only_refl].
  repeat split; simpl; auto. now rewrite length_insert.
Qed.

Lemma basic_ack_append_only tag : keeps append_only (basic_ack tag).
Proof. intros w. repeat split; simpl; auto. now apply prefix_app_r. Qed.

Lemma all_completed_append_only deps : keeps append_only (all_completed deps).
Proof. intros w. rewrite all_completed_state. apply append_only_refl. Qed.

Lemma alloc_append_only t : keeps append_only (alloc t).
Proof.
  intros w. repeat split; simpl; auto. rewrite length_app. simpl. lia.
Qed.

Lemma tasks_setitem_append_only k l : keeps append_only (tasks_setitem k l).
Proof.
  intros w. repeat split; simpl; auto.
  intros k' Hk'. apply lookup_insert_is_Some.
  destruct (decide (k = k')); [now left | now right].
Qed.

Lemma dependents_append_append_only d x :
  keeps append_only (dependents_append d x).
Proof.
  intros w. repeat split; simpl; auto.
  intros d'. destruct (decide (d = d')) as [<-|Hne].
  - rewrite lookup_insert_eq. simpl. now apply prefix_app_r.
  - now rewrite lookup_insert_ne.
Qed.

Lemma check_dependency_append_only d : keeps append_only (check_dependency d).
Proof.
  intros w. unfold check_dependency, bind, tasks_contains.
  destruct (bool_decide _); apply append_only_refl.
Qed.

Lemma create_task_append_only request uuid :
  keeps append_only (create_task request uuid).
Proof.
  unfold create_task.
  repeat first
    [ apply queue_task_append_only
    | apply alloc_append_only
    | apply tasks_setitem_append_only
    | apply dependents_append_append_only
    | apply check_dependency_append_only
    | keeps_step append_only_refl append_only_trans ].
Qed.

Lemma reevaluate_append_only k : keeps append_only (reevaluate k).
Proof.
  unfold reevaluate.
  repeat first
    [ apply queue_task_append_only
    | apply all_completed_append_only
    | keeps_step append_only_refl append_only_trans
    | keeps_pure append_only_refl ].
Qed.

Lemma mark_failed_append_only j : keeps append_only (mark_failed j).
Proof.
  destruct j; simpl;
  repeat first
    [ apply set_status_append_only
    | keeps_step append_only_refl append_only_trans
    | keeps_pure append_only_refl ].
Qed.

Lemma on_error_append_only tag body : keeps append_only (on_error tag body).
Proof.
  unfold on_error.
  repeat first
    [ apply mark_failed_append_only
    | apply basic_ack_append_only
    | apply json_loads_keeps, append_only_refl
    | apply json_getitem_keeps, append_only_refl
    | keeps_step append_only_refl append_only_trans ].
Qed.

Lemma process_task_rest_append_only k l :
  keeps append_only (process_task_rest k l).
Proof.
  unfold process_task_rest.
  repeat first
    [ apply set_status_append_only
    | apply reevaluate_append_only
    | keeps_step append_only_refl append_only_trans
    | keeps_pure append_only_refl ].
Qed.

Lemma callback_enter_append_only tag body :
  keeps append_only (callback_enter tag body).
Proof.
  unfold callback_enter.
  repeat first
    [ apply on_error_append_only
    | apply json_loads_keeps, append_only_refl
    | apply json_getitem_keeps, append_only_refl
    | match goal with |- keeps _ (match ?j with _ => _ end) => destruct j end
    | apply set_status_append_only
    | keeps_step append_only_refl append_only_trans
    | keeps_pure append_only_refl ].
Qed.

Lemma callback_resume_append_only work_ok tag body k l :
  keeps append_only (callback_resume work_ok tag body k l).
Proof.
  unfold callback_resume.
  repeat first
    [ apply on_error_append_only
    | apply process_task_rest_append_only
    | apply basic_ack_append_only
    | apply time_sleep_keeps, append_only_refl
    | keeps_step append_only_refl append_only_trans ].
Qed.

Lemma sys_step_append_only e s s' :
  sys_step e s = Some s' -> append_only (world s) (world s').
Proof.
  intros Hstep.
  destruct e as [request uuid script|tag|tag work_ok script];
    simpl in Hstep.
  - pose proof (create_task_append_only request uuid
                  (with_net script (world s))) as Ha.
    destruct (create_task _ _ _) as [r w']. injection Hstep as <-.
    exact Ha.
  - destruct (deliverable tag s) as [[q body]|]; [|discriminate].
    pose proof (callback_enter_append_only tag body (world s)) as Ha.
    destruct (callback_enter tag body (world s)) as [[[k l|]|err] w'];
      injection Hstep as <-; exact Ha.
  - destruct (take_frame tag (running s)) as [[f rest]|]; [|discriminate].
    pose proof (callback_resume_append_only work_ok tag (f_body f)
                  (f_task_id f) (f_task f) (with_net script (world s)))
      as Ha.
    destruct (callback_resume _ _ _ _ _ _) as [r w'].
    injection Hstep as <-. exact Ha.
Qed.



(** ** Invariants of the reachable states *)

Lemma status_only_task_of w w' k t' :
  status_only w w' -> task_of w' k = Some t' ->
  exists t, task_of w k = Some t /\ same_task t t'.
Proof.
  intros (Ht & _ & Hlen & Hev) Hk.
  apply task_of_Some in Hk as (l & Hl & Hh). rewrite Ht in Hl.
  assert (Hlt : l < length (heap w)).
  { rewrite <- Hlen. now apply lookup_lt_Some with t'. }
  apply lookup_lt_is_Some in Hlt as [t Hlw].
  destruct (Hev l t Hlw) as (t2 & Hl2 & Hsame & _).
  assert (t2 = t') as -> by congruence.
  exists t. split; [apply task_of_Some; eauto | exact Hsame].
Qed.

Lemma status_only_index w w' :
  status_only w w' -> ids_match w /\ index_complete w ->
  ids_match w' /\ index_complete w'.
Proof.
  intros Hso [Hid Hix]. split.
  - intros k t' Hk.
    destruct (status_only_task_of _ _ _ _ Hso Hk) as (t & Ht & (E & _)).
    rewrite E. now apply Hid.
  - intros k t' d Hk Hin.
    destruct (status_only_task_of _ _ _ _ Hso Hk)
      as (t & Ht & (_ & _ & E & _)).
    destruct Hso as (_ & -> & _). apply (Hix k t d Ht). now rewrite <- E.
Qed.

Lemma created_task_of_inv request k w k' t :
  refs_valid w -> task_of (created request k w) k' = Some t ->
  (k' = k /\ t = new_task request k)
  \/ (k' <> k /\ task_of w k' = Some t).
Proof.
  intros Hr Hk. destruct (decide (k' = k)) as [->|Hne].
  - left. rewrite created_task_of in Hk. split; congruence.
  - right. split; [exact Hne|].
    apply task_of_Some in Hk as (l & Hl & Hh). simpl in Hl, Hh.
    rewrite lookup_insert_ne in Hl by congruence.
    rewrite lookup_app_l in Hh by now apply (Hr k' l).
    apply task_of_Some. eauto.
Qed.

Lemma created_index request k w :
  refs_valid w -> ids_match w /\ index_complete w ->
  ids_match (created request k w) /\ index_complete (created request k w).
Proof.
  intros Hr [Hid Hix]. split.
  - intros k' t Hk.
    destruct (created_task_of_inv _ _ _ _ _ Hr Hk) as [[-> ->]|[_ Hk']];
      [reflexivity | now apply Hid].
  - intros k' t d Hk Hin. simpl. rewrite register_lookup.
    apply elem_of_app.
    destruct (created_task_of_inv _ _ _ _ _ Hr Hk) as [[-> ->]|[_ Hk']].
    + right. apply elem_of_replicate. split; [reflexivity|].
      simpl in Hin. apply list_elem_of_In in Hin.
      apply (count_occ_In string_dec) in Hin. lia.
    + left. now apply (Hix k' t d).
Qed.

Lemma same_store_index w w' :
  same_store w w' -> ids_match w /\ index_complete w ->
  ids_match w' /\ index_complete w'.
Proof.
  intros Hs [Hid Hix]. split.
  - intros k t Hk. rewrite (task_of_same_store _ _ _ Hs) in Hk.
    now apply Hid.
  - intros k t d Hk Hin. rewrite (task_of_same_store _ _ _ Hs) in Hk.
    destruct Hs as (_ & _ & ->). now apply (Hix k t d).
Qed.

(** The store a creation ends in: the store it started from, or the store
    with the new task. *)
Lemma create_task_store request uuid w :
  same_store w (snd (create_task request uuid w))
  \/ same_store (created request (substring 0 8 uuid) w)
                (snd (create_task request uuid w)).
Proof.
  destruct (known_or_unknown w (r_dependencies request)) as [Hp|Hex].
  - right. rewrite (create_task_run request uuid w Hp).
    pose proof (queue_task_frame (substring 0 8 uuid)
                  (created request (substring 0 8 uuid) w)) as [Hf _].
    destruct (queue_task _ _) as [[b|e] w']; exact Hf.
  - left. destruct (check_dependencies_fail _ _ Hex) as (d & _ & _ & Hrun).
    unfold create_task. erewrite bind_raise by exact Hrun. repeat split.
Qed.

Lemma sys_step_index e s s' :
  system_ok s -> ids_match (world s) /\ index_complete (world s) ->
  sys_step e s = Some s' ->
  ids_match (world s') /\ index_complete (world s').
Proof.
  intros [(Hr & _) _] Hix Hstep.
  destruct e as [request uuid script|tag|tag work_ok script];
    simpl in Hstep.
  - pose proof (create_task_store request uuid (with_net script (world s)))
      as Hst.
    destruct (create_task _ _ _) as [r w']. injection Hstep as <-.
    simpl in *. destruct Hst as [Hst|Hst].
    + now apply (same_store_index (with_net script (world s))).
    + apply (same_store_index _ _ Hst).
      now apply (created_index request _ (with_net script (world s))).
  - destruct (deliverable tag s) as [[q body]|]; [|discriminate].
    pose proof (callback_enter_status_only tag body (world s)) as Hso.
    destruct (callback_enter tag body (world s)) as [[[k l|]|err] w'];
      injection Hstep as <-; now apply (status_only_index (world s)).
  - destruct (take_frame tag (running s)) as [[f rest]|]; [|discriminate].
    pose proof (callback_resume_status_only work_ok tag (f_body f)
                  (f_task_id f) (f_task f) (with_net script (world s)))
      as Hso.
    destruct (callback_resume _ _ _ _ _ _) as [r w'].
    injection Hstep as <-.
    now apply (status_only_index (with_net script (world s))).
Qed.

Lemma sys_step_published_known e s s' :
  system_ok s -> published_known (world s) -> sys_step e s = Some s' ->
  published_known (world s').
Proof.
  intros Hok Hpk Hstep.
  destruct (sys_step_spec e s s' Hok Hstep) as (_ & ms & Hpub & Hready).
  destruct (sys_step_append_only e s s' Hstep) as (Hkeys & _).
  intros q body Hin. unfold newly_published in Hpub. rewrite Hpub in Hin.
  apply elem_of_app in Hin as [Hin|Hin].
  - destruct (Hpk q body Hin) as (k & msg & -> & Hk & Hq).
    exists k, msg. split; [reflexivity|]. split; [now apply Hkeys | exact Hq].
  - rewrite Forall_forall in Hready.
    destruct (Hready _ Hin) as (k & t & Hm & Ht & _).
    unfold message_for in Hm. injection Hm as -> ->.
    exists k, (t_message t). split; [reflexivity|]. split.
    + apply task_of_Some in Ht as (l & Hl & _). eauto.
    + destruct (t_requires_ordering t); [now right | now left].
Qed.

Lemma run_invariants es : forall s s',
  system_ok s ->
  ids_match (world s) /\ index_complete (world s) ->
  published_known (world s) ->
  run es s = Some s' ->
  system_ok s'
  /\ (ids_match (world s') /\ index_complete (world s'))
  /\ published_known (world s').
Proof.
  induction es as [|e es IH]; simpl; intros s s' Hok Hix Hpk Hrun.
  - injection Hrun as <-. auto.
  - destruct (sys_step e s) as [s1|] eqn:Hstep; [|discriminate].
    apply (IH s1 s'); [| | |exact Hrun].
    + now apply (sys_step_spec e s s1).
    + now apply (sys_step_index e s s1).
    + now apply (sys_step_published_known e s s1).
Qed.

Lemma reachable_invariants s :
  reachable s ->
  system_ok s
  /\ (ids_match (world s) /\ index_complete (world s))
  /\ published_known (world s).
Proof.
  intros [es Hrun]. apply (run_invariants es initial s); auto.
  - apply initial_ok.
  - split.
    + intros k t Hk. unfold task_of in Hk. simpl in Hk.
      rewrite lookup_empty in Hk. discriminate.
    + intros k t d Hk. unfold task_of in Hk. simpl in Hk.
      rewrite lookup_empty in Hk. discriminate.
  - intros q body Hin. simpl in Hin. inversion Hin.
Qed.

(** ** The callback when the work succeeds *)

Lemma process_task_success_run k l t w :
  tasks w !! k = Some l -> heap w !! l = Some t ->
  process_task true k w
  = process_task_rest k l (with_object_status l IN_PROGRESS w).
Proof.
  intros Hk Hl. unfold process_task.
  erewrite bind_ok by (unfold tasks_getitem; rewrite Hk; reflexivity).
  erewrite bind_ok by (apply set_status_run with t; exact Hl).
  reflexivity.
Qed.

Lemma callback_success_run tag k msg l t w :
  store_ok w -> tasks w !! k = Some l -> heap w !! l = Some t ->
  exists w1 ms,
    callback true tag (task_body k msg) w = (Ok tt, with_ack tag w1)
    /\ same_but_broker (with_object_status l COMPLETED w) w1
    /\ published w1 = published w ++ ms
    /\ Forall (ready_message (with_object_status l COMPLETED w)) ms
    /\ (net w = [] ->
        ms = messages_of_ready (with_object_status l COMPLETED w)
                               (default [] (dependents w !! k))).
Proof.
  intros Hok Hk Hl.
  set (w0 := with_object_status l IN_PROGRESS w).
  assert (Hok0 : store_ok w0).
  { apply (status_only_store_ok w); [|exact Hok].
    now apply with_object_status_status_only. }
  assert (Hl0 : heap w0 !! l = Some (with_status IN_PROGRESS t))
    by now apply with_object_status_lookup.
  destruct (process_task_rest_spec k l _ w0 Hok0 Hl0)
    as (w1 & ms & Hrun & Hsame & Hpub & Hready & Hms).
  unfold w0 in Hsame, Hready, Hms.
  rewrite with_object_status_twice in Hsame, Hready, Hms.
  exists w1, ms.
  split; [|split; [exact Hsame|split; [exact Hpub|split;
    [exact Hready | exact Hms]]]].
  rewrite (callback_decoded _ _ _ (JStr k)) by reflexivity.
  unfold try_except, process_task_of. cbv beta iota.
  erewrite bind_ok
    by (rewrite (process_task_success_run k l t w Hk Hl); exact Hrun).
  reflexivity.
Qed.

Lemma callback_failure_run tag body k l t w :
  decode_task_id body = Some (JStr k) ->
  tasks w !! k = Some l -> heap w !! l = Some t ->
  callback false tag body w
  = (Ok tt, with_ack tag (with_object_status l FAILED w)).
Proof.
  intros Hd Hk Hl. rewrite (callback_decoded _ _ _ _ _ Hd).
  unfold try_except, process_task_of. cbv beta iota.
  erewrite bind_raise by (eapply process_task_work_fails; eauto).
  erewrite bind_ok
    by (eapply mark_failed_run;
        [exact Hk | apply with_object_status_lookup; exact Hl]).
  rewrite with_object_status_twice. reflexivity.
Qed.

Lemma status_of_after_completion l w d :
  l < length (heap w) ->
  status_of w d = Some COMPLETED \/ tasks w !! d = Some l ->
  status_of (with_object_status l COMPLETED w) d = Some COMPLETED.
Proof.
  intros Hlt Hd. apply status_of_Some. simpl.
  apply lookup_lt_is_Some in Hlt as [t Hl].
  destruct (tasks w !! d) as [l'|] eqn:Hk.
  - destruct (decide (l' = l)) as [->|Hne].
    + exists l, (with_status COMPLETED t).
      rewrite list_lookup_alter_eq, Hl. now repeat split.
    + destruct Hd as [Hd|Hd]; [|congruence].
      apply status_of_Some in Hd as (l2 & t2 & Hk2 & Hl2 & Hs).
      assert (l2 = l') as -> by congruence.
      exists l', t2. rewrite list_lookup_alter_ne by congruence.
      now repeat split.
  - destruct Hd as [Hd|Hd]; [|discriminate].
    apply status_of_Some in Hd as (l2 & t2 & Hk2 & _). congruence.
Qed.

Lemma task_of_after_status l s w a ta :
  task_of w a = Some ta ->
  exists ta', task_of (with_object_status l s w) a = Some ta'
              /\ same_task ta ta'.
Proof.
  intros Ha. apply task_of_Some in Ha as (la & Hk & Hl).
  destruct (decide (la = l)) as [->|Hne].
  - exists (with_status s ta). split; [|repeat split].
    apply task_of_Some. exists l. split; [exact Hk|].
    simpl. now rewrite list_lookup_alter_eq, Hl.
  - exists ta. split; [|apply same_task_refl].
    apply task_of_Some. exists la. split; [exact Hk|].
    simpl. now rewrite list_lookup_alter_ne by congruence.
Qed.

(** X3: for a message of a task of the store, when the work succeeds the
    callback returns, the task is COMPLETED, the message is acknowledged,
    the dicts are as before, and every message published is the message of
    a task whose dependencies are all COMPLETED; with the broker reachable
    the published messages are those of the ready entries of the
    dependents list of the task. *)
Theorem callback_completes_and_dispatches tag k msg l t w :
  store_ok w -> tasks w !! k = Some l -> heap w !! l = Some t ->
  exists w' ms,
    callback true tag (task_body k msg) w = (Ok tt, w')
    /\ status_of w' k = Some COMPLETED
    /\ tasks w' = tasks w /\ dependents w' = dependents w
    /\ acked w' = acked w ++ [tag]
    /\ published w' = published w ++ ms
    /\ (forall m, m ∈ ms -> ready_message w' m)
    /\ (net w = [] ->
        ms = messages_of_ready w' (default [] (dependents w !! k))).
Proof.
  intros Hok Hk Hl.
  destruct (callback_success_run tag k msg l t w Hok Hk Hl)
    as (w1 & ms & Hrun & ((Hh & Ht & Hd) & Ha) & Hpub & Hready & Hms).
  assert (Hsame : same_store (with_object_status l COMPLETED w)
                             (with_ack tag w1)) by now repeat split.
  exists (with_ack tag w1), ms. split; [exact Hrun|]. split.
  { rewrite (status_of_same_store _ _ _ Hsame).
    apply status_of_after_completion; [|now right].
    now apply lookup_lt_Some with t. }
  split; [exact Ht|]. split; [exact Hd|].
  split; [simpl; now rewrite Ha|]. split; [exact Hpub|]. split.
  - intros m Hin. rewrite Forall_forall in Hready.
    apply (ready_message_same_store _ _ _ Hsame). now apply Hready.
  - intros Hn. rewrite (messages_of_ready_same_store _ _ _ Hsame).
    now apply Hms.
Qed.

Lemma callback_completes_and_dispatches_witness :
  exists w' ms,
    callback true 0 (task_body "b0000000" "b")
             (world (state_after (firstn 3 sample_run)))
    = (Ok tt, w')
    /\ status_of w' "b0000000" = Some COMPLETED
    /\ tasks w' = tasks (world (state_after (firstn 3 sample_run)))
    /\ dependents w' = dependents (world (state_after (firstn 3 sample_run)))
    /\ acked w' = acked (world (state_after (firstn 3 sample_run))) ++ [0]
    /\ published w'
       = published (world (state_after (firstn 3 sample_run))) ++ ms
    /\ (forall m, m ∈ ms -> ready_message w' m)
    /\ (net (world (state_after (firstn 3 sample_run))) = [] ->
        ms = messages_of_ready w'
               (default []
                  (dependents (world (state_after (firstn 3 sample_run)))
                   !! "b0000000"))).
Proof.
  apply (callback_completes_and_dispatches 0 "b0000000" "b" 0
           (mkTask "b0000000" PENDING "b" [] false)
           (world (state_after (firstn 3 sample_run)))).
  - apply reachable_ok. exists (firstn 3 sample_run). vm_compute. reflexivity.
  - vm_compute. reflexivity.
  - vm_compute. reflexivity.
Defined.

(** X13: in a reachable state with the broker reachable, when the message
    of task [k] is handled with success and every other dependency of a
    task [a] that depends on [k] is already COMPLETED, the callback
    publishes the message of [a]. *)
Theorem last_dependency_dispatches_dependent s tag k msg l a ta :
  reachable s -> net (world s) = [] ->
  tasks (world s) !! k = Some l ->
  task_of (world s) a = Some ta -> k ∈ t_dependencies ta ->
  (forall d, d ∈ t_dependencies ta -> d <> k ->
             status_of (world s) d = Some COMPLETED) ->
  exists w' ms,
    callback true tag (task_body k msg) (world s) = (Ok tt, w')
    /\ published w' = published (world s) ++ ms
    /\ message_for a ta ∈ ms.
Proof.
  intros Hreach Hn Hk Ha Hin Hothers.
  destruct (reachable_invariants s Hreach)
    as ((Hok & _) & (_ & Hix) & _).
  assert (Hlt : l < length (heap (world s))) by now apply (proj1 Hok k l).
  destruct (lookup_lt_is_Some_2 _ _ Hlt) as [t Hl].
  destruct (callback_success_run tag k msg l t (world s) Hok Hk Hl)
    as (w1 & ms & Hrun & _ & Hpub & _ & Hms).
  exists (with_ack tag w1), ms. split; [exact Hrun|].
  split; [exact Hpub|]. rewrite (Hms Hn).
  set (wc := with_object_status l COMPLETED (world s)).
  destruct (task_of_after_status l COMPLETED (world s) a ta Ha)
    as (ta' & Ha' & (_ & Emsg & Edeps & Eflag)).
  fold wc in Ha'.
  assert (Hready : ready_b wc a = true).
  { apply (ready_b_spec wc a ta' Ha'). unfold all_deps_completed.
    rewrite Edeps. apply Forall_forall. intros d Hd.
    apply status_of_after_completion; [exact Hlt|].
    destruct (decide (d = k)) as [->|Hne]; [now right | left; auto]. }
  unfold messages_of_ready. apply list_elem_of_In, in_flat_map.
  exists a. split.
  - apply list_elem_of_In. now apply (Hix a ta k).
  - rewrite Ha', Hready. left. unfold message_for.
    now rewrite Emsg, Eflag.
Qed.

Lemma last_dependency_dispatches_dependent_witness :
  exists w' ms,
    callback true 1 (task_body "a0000000" "a")
             (world (state_after (firstn 5 sample_run)))
    = (Ok tt, w')
    /\ published w'
       = published (world (state_after (firstn 5 sample_run))) ++ ms
    /\ message_for "d0000000"
         (mkTask "d0000000" PENDING "d" ["a0000000"] false) ∈ ms.
Proof.
  apply (last_dependency_dispatches_dependent
           (state_after (firstn 5 sample_run)) 1 "a0000000" "a" 1
           "d0000000" (mkTask "d0000000" PENDING "d" ["a0000000"] false)).
  - exists (firstn 5 sample_run). vm_compute. reflexivity.
  - vm_compute. reflexivity.
  - vm_compute. reflexivity.
  - vm_compute. reflexivity.
  - apply elem_of_cons. now left.
  - intros d Hd Hne. apply list_elem_of_singleton in Hd. contradiction.
Defined.

(** ** Creation and lookup *)

Lemma create_task_ok_inv request uuid w k w' :
  create_task request uuid w = (Ok k, w') ->
  k = substring 0 8 uuid
  /\ same_but_broker (created request k w) w'
  /\ exists b, queue_task k (created request k w) = (Ok b, w').
Proof.
  intros Hrun.
  destruct (known_or_unknown w (r_dependencies request)) as [Hp|Hex].
  - rewrite (create_task_run request uuid w Hp) in Hrun.
    pose proof (queue_task_frame (substring 0 8 uuid)
                  (created request (substring 0 8 uuid) w)) as Hf.
    destruct (queue_task _ _) as [[b|e] w1] eqn:Hq; [|discriminate].
    injection Hrun as <- <-. split; [reflexivity|]. split; [exact Hf|].
    now exists b.
  - destruct (check_dependencies_fail _ _ Hex) as (d & _ & _ & Hfail).
    unfold create_task in Hrun.
    erewrite bind_raise in Hrun by exact Hfail. discriminate.
Qed.

Lemma get_task_run w k t :
  task_of w k = Some t -> get_task k w = (Ok t, w).
Proof.
  intros Ht. apply task_of_Some in Ht as (l & Hk & Hl). unfold get_task.
  erewrite bind_ok
    by (unfold tasks_contains; rewrite bool_decide_eq_true_2 by eauto;
        reflexivity).
  cbv beta iota.
  erewrite bind_ok by (unfold tasks_getitem; rewrite Hk; reflexivity).
  unfold load. now rewrite Hl.
Qed.

(** X1: [get_task] on the identifier a successful creation returned gives
    the task as the request described it, with status PENDING and that
    identifier, also when the identifier was already in use; on a key that
    [tasks] does not hold it raises the 404 error; in both cases the state
    is unchanged. *)
Theorem get_task_after_create :
  (forall request uuid w k w',
      create_task request uuid w = (Ok k, w') ->
      get_task k w'
      = (Ok (mkTask k PENDING (r_message request) (r_dependencies request)
                    (r_requires_ordering request)), w'))
  /\ (forall w k,
        tasks w !! k = None ->
        get_task k w = (Raise (HTTPException 404 "Task not found"), w)).
Proof.
  split.
  - intros request uuid w k w' Hrun.
    destruct (create_task_ok_inv _ _ _ _ _ Hrun) as (_ & (Hs & _) & _).
    apply get_task_run. rewrite (task_of_same_store _ _ _ Hs).
    apply created_task_of.
  - intros w k Hk. unfold get_task.
    erewrite bind_ok
      by (unfold tasks_contains;
          rewrite bool_decide_eq_false_2
            by (rewrite Hk; intros [? ?]; discriminate);
          reflexivity).
    reflexivity.
Qed.

Lemma get_task_after_create_witness :
  get_task "deadbeef"
    (snd (create_task (mkTaskRequest "second" ["deadbeef"] true)
            "deadbeef-0000-4000-8000-000000000002" sample_first))
  = (Ok (mkTask "deadbeef" PENDING "second" ["deadbeef"] true),
     snd (create_task (mkTaskRequest "second" ["deadbeef"] true)
            "deadbeef-0000-4000-8000-000000000002" sample_first))
  /\ get_task "nonexistent" sample_first
     = (Raise (HTTPException 404 "Task not found"), sample_first).
Proof.
  split.
  - apply (proj1 get_task_after_create
             (mkTaskRequest "second" ["deadbeef"] true)
             "deadbeef-0000-4000-8000-000000000002" sample_first).
    vm_compute. reflexivity.
  - apply (proj2 get_task_after_create sample_first "nonexistent").
    vm_compute. reflexivity.
Defined.

Lemma created_status_of request k w d :
  tasks w !! k = None -> is_Some (task_of w d) ->
  status_of (created request k w) d = status_of w d.
Proof.
  intros Hfresh [t Ht]. unfold status_of.
  now rewrite (created_keeps_tasks request k w d t Hfresh Ht), Ht.
Qed.

Lemma created_all_deps_completed request k w deps :
  tasks w !! k = None -> Forall (fun d => is_Some (task_of w d)) deps ->
  all_deps_completed (created request k w) deps <-> all_deps_completed w deps.
Proof.
  intros Hfresh Hp. unfold all_deps_completed.
  induction deps as [|d deps IH]; [split; constructor|].
  apply Forall_cons in Hp as [Hd Hp]. rewrite !Forall_cons.
  rewrite (created_status_of request k w d Hfresh Hd), (IH Hp). tauto.
Qed.

(** X2: the first dispatch attempt of a creation with a new identifier and
    known dependencies.  The creation succeeds in every case.  When some
    dependency is not COMPLETED nothing is published; when all are
    COMPLETED (or there is none) and the broker is reachable exactly the
    message of the new task is published; when all are COMPLETED and the
    connection, the channel, a declaration or the publication fails,
    nothing is published and the creation still succeeds. *)
Theorem create_task_first_dispatch request uuid w :
  tasks w !! substring 0 8 uuid = None ->
  Forall (fun d => is_Some (task_of w d)) (r_dependencies request) ->
  exists w',
    create_task request uuid w = (Ok (substring 0 8 uuid), w')
    /\ status_of w' (substring 0 8 uuid) = Some PENDING
    /\ (~ all_deps_completed w (r_dependencies request) ->
        published w' = published w)
    /\ (all_deps_completed w (r_dependencies request) -> net w = [] ->
        published w'
        = published w
          ++ [message_for (substring 0 8 uuid)
                (new_task request (substring 0 8 uuid))])
    /\ (all_deps_completed w (r_dependencies request) ->
        (exists i, i < 5 /\ net w !! i = Some false) ->
        published w' = published w).
Proof.
  set (k := substring 0 8 uuid). intros Hfresh Hp.
  assert (Hkeys : Forall (fun d => is_Some (tasks w !! d))
                         (r_dependencies request)).
  { eapply Forall_impl; [exact Hp|]. intros d [t Ht].
    apply task_of_Some in Ht as (l & Hl & _). eauto. }
  pose proof (create_task_run request uuid w Hkeys) as Hrun. fold k in Hrun.
  pose proof (created_task_of request k w) as Ht.
  pose proof (created_all_deps_completed request k w _ Hfresh Hp) as Hiff.
  assert (Hp' : Forall (fun d => is_Some (task_of (created request k w) d))
                       (t_dependencies (new_task request k))).
  { simpl. eapply Forall_impl; [exact Hp|]. intros d [t Hd].
    exists t. now apply created_keeps_tasks. }
  destruct (queue_task_total _ k _ Ht Hp') as (b & w' & Hq & (Hs & _)).
  rewrite Hq in Hrun. exists w'. split; [exact Hrun|]. split.
  { unfold status_of. now rewrite (task_of_same_store _ _ _ Hs), Ht. }
  split; [|split].
  - intros Hnr.
    rewrite (queue_task_blocked_false _ k _ Ht Hp') in Hq
      by (simpl; now rewrite Hiff).
    now injection Hq as <- <-.
  - intros Hr Hn.
    rewrite (queue_task_ready _ k _ Ht) in Hq by (simpl; now apply Hiff).
    rewrite try_publish_up in Hq by exact Hn.
    now injection Hq as <- <-.
  - intros Hr (i & Hi & Hn).
    rewrite (queue_task_ready _ k _ Ht) in Hq by (simpl; now apply Hiff).
    destruct (try_publish_down k (new_task request k) (created request k w)
                i Hi Hn) as (n & Hdown).
    rewrite Hdown in Hq. now injection Hq as <- <-.
Qed.

Lemma create_task_first_dispatch_witness :
  exists w',
    create_task (mkTaskRequest "c" ["b0000000"] true)
                "c0000000-0000-4000-8000-000000000000" sample_world
    = (Ok (substring 0 8 "c0000000-0000-4000-8000-000000000000"), w')
    /\ status_of w' (substring 0 8 "c0000000-0000-4000-8000-000000000000")
       = Some PENDING
    /\ (~ all_deps_completed sample_world
            (r_dependencies (mkTaskRequest "c" ["b0000000"] true)) ->
        published w' = published sample_world)
    /\ (all_deps_completed sample_world
          (r_dependencies (mkTaskRequest "c" ["b0000000"] true)) ->
        net sample_world = [] ->
        published w'
        = published sample_world
          ++ [message_for (substring 0 8 "c0000000-0000-4000-8000-000000000000")
                (new_task (mkTaskRequest "c" ["b0000000"] true)
                   (substring 0 8 "c0000000-0000-4000-8000-000000000000"))])
    /\ (all_deps_completed sample_world
          (r_dependencies (mkTaskRequest "c" ["b0000000"] true)) ->
        (exists i, i < 5 /\ net sample_world !! i = Some false) ->
        published w' = published sample_world).
Proof.
  apply (create_task_first_dispatch (mkTaskRequest "c" ["b0000000"] true)
           "c0000000-0000-4000-8000-000000000000" sample_world).
  - reflexivity.
  - repeat constructor. exists sample_b. reflexivity.
Defined.

(** ** The callback on other messages *)

Lemma callback_undecoded work_ok tag body w :
  decode_task_id body = None ->
  exists e, callback work_ok tag body w = (Raise e, w).
Proof.
  intros Hd. unfold callback, on_error, try_except.
  destruct body as [j|raw]; [|eexists; reflexivity].
  destruct j as [| | | | |fields]; try (eexists; reflexivity).
  simpl in Hd. cbv [bind json_loads json_getitem ret raise]. rewrite Hd.
  eexists; reflexivity.
Qed.

(** X4: a message whose "task_id" is not a key of [tasks] (an unknown
    string, or a number, a boolean or null) is acknowledged and nothing
    else changes, whether the work would succeed or not. *)
Theorem callback_unknown_key_acknowledged work_ok tag body j w :
  decode_task_id body = Some j ->
  match j with
  | JStr k => tasks w !! k = None
  | JNull | JBool _ | JNum _ => True
  | JArr _ | JObj _ => False
  end ->
  callback work_ok tag body w = (Ok tt, with_ack tag w).
Proof.
  intros Hd Hj.
  destruct j as [| | |k| |]; try contradiction;
    try (rewrite (callback_decoded _ _ _ _ _ Hd); reflexivity).
  now apply (callback_unknown_task work_ok tag body k w).
Qed.

Lemma callback_unknown_key_acknowledged_witness :
  callback true 3 (task_body "nonexistent" "m") sample_world
  = (Ok tt, with_ack 3 sample_world).
Proof.
  apply (callback_unknown_key_acknowledged true 3
           (task_body "nonexistent" "m") (JStr "nonexistent") sample_world).
  - reflexivity.
  - reflexivity.
Defined.

(** X5: a body without a usable "task_id" (bytes that are not JSON, a JSON
    value that is not a dict, a dict without the key, or a "task_id" that is
    a list or a dict) makes the callback raise; the state is unchanged, so
    the message is not acknowledged and no status is written. *)
Theorem callback_without_usable_task_id_raises work_ok tag body w :
  decode_task_id body = None
  \/ (exists items, decode_task_id body = Some (JArr items))
  \/ (exists fields, decode_task_id body = Some (JObj fields)) ->
  exists e, callback work_ok tag body w = (Raise e, w).
Proof.
  intros [Hd|[[items Hd]|[fields Hd]]].
  - now apply callback_undecoded.
  - rewrite (callback_decoded _ _ _ _ _ Hd). eexists; reflexivity.
  - rewrite (callback_decoded _ _ _ _ _ Hd). eexists; reflexivity.
Qed.

Lemma callback_without_usable_task_id_raises_witness :
  exists e,
    callback true 3
      (Encoded (JObj [("message", JStr "m");
                      ("task_id", JArr [JStr "b0000000"])]))
      sample_world
    = (Raise e, sample_world).
Proof.
  apply (callback_without_usable_task_id_raises true 3
           (Encoded (JObj [("message", JStr "m");
                           ("task_id", JArr [JStr "b0000000"])]))
           sample_world).
  right. left. exists [JStr "b0000000"]. reflexivity.
Defined.

(** ** Acknowledgements *)

Lemma no_ack_refl w : no_ack w w.
Proof. reflexivity. Qed.

Lemma no_ack_trans a b c : no_ack a b -> no_ack b c -> no_ack a c.
Proof. unfold no_ack. congruence. Qed.

Lemma set_status_no_ack l s : keeps no_ack (set_status l s).
Proof. intros w. unfold set_status. now destruct (heap w !! l). Qed.

Lemma queue_task_no_ack k : keeps no_ack (queue_task k).
Proof. intros w. apply queue_task_frame. Qed.

Lemma all_completed_no_ack deps : keeps no_ack (all_completed deps).
Proof. intros w. now rewrite all_completed_state. Qed.

Lemma process_task_no_ack work_ok k : keeps no_ack (process_task work_ok k).
Proof.
  unfold process_task, reevaluate.
  repeat first
    [ apply set_status_no_ack
    | apply queue_task_no_ack
    | apply all_completed_no_ack
    | apply time_sleep_keeps, no_ack_refl
    | keeps_step no_ack_refl no_ack_trans
    | keeps_pure no_ack_refl ].
Qed.

Lemma process_task_of_no_ack work_ok j : keeps no_ack (process_task_of work_ok j).
Proof.
  destruct j; simpl; try (intros w; reflexivity).
  apply process_task_no_ack.
Qed.

Lemma mark_failed_no_ack j : keeps no_ack (mark_failed j).
Proof.
  destruct j; simpl;
  repeat first
    [ apply set_status_no_ack
    | keeps_step no_ack_refl no_ack_trans
    | keeps_pure no_ack_refl ].
Qed.

(** A computation that acknowledges nothing, followed by the
    acknowledgement: either it returns and exactly the tag has been added,
    or it raises and nothing has been added. *)
Lemma then_ack (m : M unit) tag w :
  keeps no_ack m ->
  (exists w1, (m >> basic_ack tag) w = (Ok tt, w1)
              /\ acked w1 = acked w ++ [tag])
  \/ (exists e w1, (m >> basic_ack tag) w = (Raise e, w1)
                   /\ m w = (Raise e, w1) /\ acked w1 = acked w).
Proof.
  intros Hm. specialize (Hm w). unfold bind.
  destruct (m w) as [[[]|e] w1]; simpl in Hm.
  - left. eexists. split; [reflexivity|]. simpl. now rewrite Hm.
  - right. now exists e, w1.
Qed.

(** X11: the callback acknowledges its own delivery tag and no other, at
    most once: when it returns, exactly its tag has been added to the
    acknowledgements; when it raises, the acknowledgements are as
    before. *)
Theorem callback_acknowledges_once work_ok tag body w :
  (exists w', callback work_ok tag body w = (Ok tt, w')
              /\ acked w' = acked w ++ [tag])
  \/ (exists e w', callback work_ok tag body w = (Raise e, w')
                   /\ acked w' = acked w).
Proof.
  destruct (decode_task_id body) as [j|] eqn:Hd.
  - rewrite (callback_decoded _ _ _ _ _ Hd). unfold try_except.
    destruct (then_ack (process_task_of work_ok j) tag w
                (process_task_of_no_ack work_ok j))
      as [(w1 & -> & Ha)|(e & w1 & -> & _ & Ha)].
    + left. now exists w1.
    + destruct (then_ack (mark_failed j) tag w1 (mark_failed_no_ack j))
        as [(w2 & -> & Ha2)|(e2 & w2 & -> & _ & Ha2)].
      * left. exists w2. now rewrite Ha2, Ha.
      * right. exists e2, w2. now rewrite Ha2, Ha.
  - destruct (callback_undecoded work_ok tag body w Hd) as (e & ->).
    right. now exists e, w.
Qed.

(** ** Reachable states *)

(** X6: in every reachable state each key of [tasks] stands for a task that
    carries the key as its identifier and whose dependencies are all tasks
    of the store, and each entry of the dependents index is a task of the
    store; the lookups of [queue_task] and [process_task] therefore never
    meet a missing key. *)
Theorem reachable_store_well_formed s :
  reachable s ->
  (forall k, is_Some (tasks (world s) !! k) ->
     exists t, task_of (world s) k = Some t /\ t_id t = k
               /\ Forall (fun d => is_Some (task_of (world s) d))
                         (t_dependencies t))
  /\ (forall k ds d, dependents (world s) !! k = Some ds -> d ∈ ds ->
        is_Some (task_of (world s) d)).
Proof.
  intros Hreach.
  destruct (reachable_invariants s Hreach) as ((Hok & _) & (Hid & _) & _).
  split.
  - intros k Hk.
    destruct (store_ok_task _ k Hok Hk) as (l & t & _ & _ & Ht & Hdeps).
    exists t. split; [exact Ht|]. split; [now apply Hid | exact Hdeps].
  - intros k ds d Hds Hin.
    assert (Hd : is_Some (tasks (world s) !! d)).
    { destruct Hok as (_ & _ & Hi). now apply (Hi k ds d). }
    destruct (store_ok_task _ d Hok Hd) as (l & t & _ & _ & Ht & _).
    now exists t.
Qed.

Lemma reachable_store_well_formed_witness :
  (forall k, is_Some (tasks (world (state_after sample_run)) !! k) ->
     exists t, task_of (world (state_after sample_run)) k = Some t
               /\ t_id t = k
               /\ Forall (fun d => is_Some
                                     (task_of (world (state_after sample_run)) d))
                         (t_dependencies t))
  /\ (forall k ds d,
        dependents (world (state_after sample_run)) !! k = Some ds ->
        d ∈ ds -> is_Some (task_of (world (state_after sample_run)) d)).
Proof.
  apply (reachable_store_well_formed (state_after sample_run)).
  exists sample_run. vm_compute. reflexivity.
Defined.

(** X7: in every reachable state every dependency edge is registered in
    the dependents index: a task stored under key [k] that lists [d] as a
    dependency occurs in the dependents list of [d]. *)
Theorem reachable_index_complete s k t d :
  reachable s ->
  task_of (world s) k = Some t -> d ∈ t_dependencies t ->
  k ∈ default [] (dependents (world s) !! d).
Proof.
  intros Hreach.
  destruct (reachable_invariants s Hreach) as (_ & (_ & Hix) & _).
  apply Hix.
Qed.

Lemma reachable_index_complete_witness :
  "d0000000"
  ∈ default [] (dependents (world (state_after sample_run)) !! "a0000000").
Proof.
  apply (reachable_index_complete (state_after sample_run) "d0000000"
           (mkTask "d0000000" PENDING "d" ["a0000000"] false) "a0000000").
  - exists sample_run. vm_compute. reflexivity.
  - vm_compute. reflexivity.
  - apply elem_of_cons. now left.
Defined.

(** X14: in every reachable state every published message is a body built
    by [queue_task] for a key of [tasks], on one of the two queues, and the
    callback run on it returns and acknowledges its tag whether the work
    succeeds or fails. *)
Theorem published_message_is_acknowledged s q body work_ok tag :
  reachable s -> (q, body) ∈ published (world s) ->
  (q = QUEUE_regular \/ q = QUEUE_ordered)
  /\ (exists k msg, body = task_body k msg
                    /\ is_Some (task_of (world s) k))
  /\ exists w', callback work_ok tag body (world s) = (Ok tt, w')
                /\ acked w' = acked (world s) ++ [tag].
Proof.
  intros Hreach Hin.
  destruct (reachable_invariants s Hreach) as ((Hok & _) & _ & Hpk).
  destruct (Hpk q body Hin) as (k & msg & -> & Hk & Hq).
  destruct (store_ok_task _ k Hok Hk) as (l & t & Hl & Ht & Htask & _).
  split; [exact Hq|]. split; [exists k, msg; split; eauto|].
  destruct work_ok.
  - destruct (callback_success_run tag k msg l t _ Hok Hl Ht)
      as (w1 & ms & Hrun & (_ & Ha) & _).
    exists (with_ack tag w1). split; [exact Hrun|]. simpl. now rewrite Ha.
  - exists (with_ack tag (with_object_status l FAILED (world s))).
    split; [|reflexivity].
    now apply callback_failure_run with k t.
Qed.

Lemma published_message_is_acknowledged_witness :
  (QUEUE_regular = QUEUE_regular \/ QUEUE_regular = QUEUE_ordered)
  /\ (exists k msg, task_body "d0000000" "d" = task_body k msg
                    /\ is_Some (task_of (world (state_after sample_run)) k))
  /\ exists w',
       callback false 3 (task_body "d0000000" "d")
                (world (state_after sample_run))
       = (Ok tt, w')
       /\ acked w' = acked (world (state_after sample_run)) ++ [3].
Proof.
  apply (published_message_is_acknowledged (state_after sample_run)
           QUEUE_regular (task_body "d0000000" "d") false 3).
  - exists sample_run. vm_compute. reflexivity.
  - vm_compute. do 3 apply list_elem_of_further. apply list_elem_of_here.
Defined.

(** ** More on the dispatcher *)

(** X8: whatever the broker does and whatever the store holds,
    [queue_task] changes no task object, neither dict and no
    acknowledgement, and it publishes nothing or exactly the message of the
    task; it answers True only when it has published that message, and
    then every dependency of the task is COMPLETED; on a key that [tasks]
    does not hold it raises KeyError and changes nothing. *)
Theorem queue_task_effects k w r w' :
  queue_task k w = (r, w') ->
  same_but_broker w w'
  /\ (published w' = published w
      \/ exists t, task_of w k = Some t
           /\ published w' = published w ++ [message_for k t])
  /\ (r = Ok true ->
      exists t, task_of w k = Some t
        /\ all_deps_completed w (t_dependencies t)
        /\ published w' = published w ++ [message_for k t])
  /\ (tasks w !! k = None -> r = Raise KeyError /\ w' = w).
Proof.
  intros Hq.
  pose proof (queue_task_frame k w) as Hf.
  pose proof (queue_task_published k w) as Hp.
  rewrite Hq in Hf, Hp. simpl in Hf, Hp.
  split; [exact Hf|]. split; [|split].
  - destruct Hp as [Hp|(t & Ht & _ & Hp)]; [now left | right; eauto].
  - intros ->. destruct (task_of w k) as [t|] eqn:Ht.
    + destruct (decide (all_deps_completed w (t_dependencies t))) as [Hr|Hr].
      * exists t. split; [reflexivity|]. split; [exact Hr|].
        rewrite (queue_task_ready _ _ _ Ht Hr) in Hq.
        destruct (try_publish_total k t w) as (b & w1 & Hq1 & _ & Htrue).
        rewrite Hq1 in Hq. injection Hq as -> ->. now apply Htrue.
      * destruct (queue_task_blocked _ _ _ Ht Hr) as (r & Hq1 & Hne).
        rewrite Hq1 in Hq. injection Hq as -> _. contradiction.
    + exfalso. unfold queue_task, bind, tasks_getitem, load in Hq.
      unfold task_of in Ht.
      destruct (tasks w !! k) as [l|]; [|discriminate].
      rewrite Ht in Hq. discriminate.
  - intros Hk. unfold queue_task, bind, tasks_getitem in Hq.
    rewrite Hk in Hq. now injection Hq as <- <-.
Qed.

Lemma queue_task_effects_witness :
  same_but_broker sample_done
    (with_published [message_for "a0000000"
                       (mkTask "a0000000" COMPLETED "m" [] false)]
       sample_done)
  /\ (published (with_published
                   [message_for "a0000000"
                      (mkTask "a0000000" COMPLETED "m" [] false)]
                   sample_done)
      = published sample_done
      \/ exists t, task_of sample_done "a0000000" = Some t
           /\ published (with_published
                           [message_for "a0000000"
                              (mkTask "a0000000" COMPLETED "m" [] false)]
                           sample_done)
              = published sample_done ++ [message_for "a0000000" t])
  /\ (Ok true = Ok true ->
      exists t, task_of sample_done "a0000000" = Some t
        /\ all_deps_completed sample_done (t_dependencies t)
        /\ published (with_published
                        [message_for "a0000000"
                           (mkTask "a0000000" COMPLETED "m" [] false)]
                        sample_done)
           = published sample_done ++ [message_for "a0000000" t])
  /\ (tasks sample_done !! "a0000000" = None ->
      Ok true = Raise KeyError
      /\ with_published [message_for "a0000000"
                           (mkTask "a0000000" COMPLETED "m" [] false)]
           sample_done
         = sample_done).
Proof.
  apply (queue_task_effects "a0000000" sample_done (Ok true)).
  vm_compute. reflexivity.
Defined.

(** X9: when the connection, the channel, both declarations and the
    publication go through and only [connection.close()] fails,
    [queue_task] answers False although the message of the task has been
    published. *)
Theorem queue_task_false_after_publishing w k t rest :
  task_of w k = Some t -> all_deps_completed w (t_dependencies t) ->
  net w = true :: true :: true :: true :: true :: false :: rest ->
  queue_task k w
  = (Ok false, with_published [message_for k t] (with_net rest w)).
Proof.
  intros Ht Hr Hn. rewrite (queue_task_ready _ _ _ Ht Hr).
  destruct w as [h ts ds p a n]. simpl in Hn. subst n. reflexivity.
Qed.

Lemma queue_task_false_after_publishing_witness :
  queue_task "b0000000"
    (with_net [true; true; true; true; true; false; true] sample_world)
  = (Ok false,
     with_published [message_for "b0000000" sample_b]
       (with_net [true]
          (with_net [true; true; true; true; true; false; true]
             sample_world))).
Proof.
  apply (queue_task_false_after_publishing
           (with_net [true; true; true; true; true; false; true] sample_world)
           "b0000000" sample_b [true]).
  - reflexivity.
  - constructor.
  - reflexivity.
Defined.

(** X12: in a well-formed store the readiness test that [process_task]
    makes before each call of [queue_task] changes nothing: the iteration
    of its loop for a dependent is [queue_task] on that dependent with the
    answer dropped. *)
Theorem reevaluate_is_queue_task w k :
  store_ok w -> is_Some (tasks w !! k) ->
  reevaluate k w = (let* _ := queue_task k in ret tt) w.
Proof.
  intros Hok Hin.
  destruct (store_ok_task w k Hok Hin) as (l & t & Hl & Ht & Htask & Hdeps).
  destruct (readiness_checks_agree _ _ Hdeps) as (b & Hall & _ & Hb).
  unfold reevaluate.
  erewrite bind_ok by (unfold tasks_getitem; rewrite Hl; reflexivity).
  erewrite bind_ok by (unfold load; rewrite Ht; reflexivity).
  erewrite bind_ok by exact Hall.
  destruct b; [reflexivity|].
  erewrite (bind_ok (queue_task k)); [reflexivity|].
  apply queue_task_blocked_false with t; auto.
  intros Hr. apply Hb in Hr. discriminate.
Qed.

Lemma reevaluate_is_queue_task_witness :
  reevaluate "a0000000" (world (state_after (firstn 5 sample_run)))
  = (let* _ := queue_task "a0000000" in ret tt)
      (world (state_after (firstn 5 sample_run))).
Proof.
  apply (reevaluate_is_queue_task (world (state_after (firstn 5 sample_run)))
           "a0000000").
  - apply reachable_ok. exists (firstn 5 sample_run). vm_compute. reflexivity.
  - vm_compute. eexists. reflexivity.
Defined.
